(** * miniclangpp: the recursive-descent parser

    A shallow embedding of [src/parser.cpp] and [src/parse_statements.cpp].
    Every parsing function of the C++ source becomes a function in the
    [Parse] monad below: the lexer the source passes by pointer is the
    state, [error_token] and a failed [assert] end the run. *)

From Stdlib Require Import ZArith Ascii String List.
From stdpp Require Import base decidable numbers list strings gmap.

Local Open Scope Z_scope.
Local Open Scope string_scope.

(** ** Tokens *)

(** [enum class TokenType].  The header that declares it ([lexer.h]) is not
    part of the sources at hand, so the constructors are the kinds the two
    source files name; any other kind of the header is [Other] with its
    name. *)
Module TokenType.
Inductive t : Set :=
| Number | Identifier
| IntegerSuffixl | IntegerSuffixL | IntegerSuffixu | IntegerSuffixU
| IntegerSuffixll | IntegerSuffixLL
| IntegerSuffixull | IntegerSuffixuLL | IntegerSuffixllu | IntegerSuffixLLu
| IntegerSuffixUll | IntegerSuffixULL | IntegerSuffixllU | IntegerSuffixLLU
| Ampersand | Asterisk | Plus | Minus | Tilde | Bang
| ForwardSlash | Modulo
| Equals | TimesEquals | DividedByEquals | ModuloEquals | PlusEquals
| MinusEquals | BitShiftLeftEquals | BitShiftRightEquals
| BitwiseAndEquals | XorEquals | BitwiseOrEquals
| Const | Restrict | Volatile | Atomic
| Typedef | Extern | Static | ThreadLocal | Auto
| Register
| AlignAs | Inline | NoReturn
| Void | Char | Short | Int | Long | Float | Double | Signed | Unsigned
| Bool | Complex | Struct | Enum | Union
| Semicolon | Comma | LBracket | LParen | RParen | Ellipsis
| LBrace | RBrace
| Case | Default | If | Switch | While | For | Do
| GoTo | Continue | Break | Return
| Eof
| Other (name : string).

(** A number for each kind, used to compare two kinds. *)
Definition tag (k : t) : N :=
  match k with
  | Number => 1 | Identifier => 2
  | IntegerSuffixl => 3 | IntegerSuffixL => 4 | IntegerSuffixu => 5
  | IntegerSuffixU => 6 | IntegerSuffixll => 7 | IntegerSuffixLL => 8
  | IntegerSuffixull => 9 | IntegerSuffixuLL => 10 | IntegerSuffixllu => 11
  | IntegerSuffixLLu => 12 | IntegerSuffixUll => 13 | IntegerSuffixULL => 14
  | IntegerSuffixllU => 15 | IntegerSuffixLLU => 16
  | Ampersand => 17 | Asterisk => 18 | Plus => 19 | Minus => 20
  | Tilde => 21 | Bang => 22 | ForwardSlash => 23 | Modulo => 24
  | Equals => 25 | TimesEquals => 26 | DividedByEquals => 27
  | ModuloEquals => 28 | PlusEquals => 29 | MinusEquals => 30
  | BitShiftLeftEquals => 31 | BitShiftRightEquals => 32
  | BitwiseAndEquals => 33 | XorEquals => 34 | BitwiseOrEquals => 35
  | Const => 36 | Restrict => 37 | Volatile => 38 | Atomic => 39
  | Typedef => 40 | Extern => 41 | Static => 42 | ThreadLocal => 43
  | Auto => 44 | Register => 45 | AlignAs => 46 | Inline => 47
  | NoReturn => 48
  | Void => 49 | Char => 50 | Short => 51 | Int => 52 | Long => 53
  | Float => 54 | Double => 55 | Signed => 56 | Unsigned => 57
  | Bool => 58 | Complex => 59 | Struct => 60 | Enum => 61 | Union => 62
  | Semicolon => 63 | Comma => 64 | LBracket => 65 | LParen => 66
  | RParen => 67 | Ellipsis => 68 | LBrace => 69 | RBrace => 70
  | Case => 71 | Default => 72 | If => 73 | Switch => 74 | While => 75
  | For => 76 | Do => 77 | GoTo => 78 | Continue => 79 | Break => 80
  | Return => 81 | Eof => 82
  | Other _ => 0
  end%N.

(** [a == b] on token kinds. *)
Definition eqb (a b : t) : bool :=
  match a, b with
  | Other x, Other y => String.eqb x y
  | _, _ => (tag a =? tag b)%N
  end.
End TokenType.

(** [struct Token]: the kind and the lexeme (the source position is never
    read by the parser). *)
Record Token : Set := mkToken {
  token_type : TokenType.t;
  token_string : string
}.


(** ** The token source

    [lexer.cpp] is not among the sources either; the parser uses it through
    four calls only.  The state it hides is the token the parser looks at
    and the tokens still to come. *)
Record Lexer : Set := mkLexer {
  current_token : Token;
  upcoming : list Token
}.

(** The token the lexer delivers once the input is used up. *)
Definition eof_token : Token := mkToken TokenType.Eof "".

(** [new_lexer(file)]: nothing has been read yet; the first
    [get_next_token] loads the first token. *)
Definition new_lexer (file : list Token) : Lexer := mkLexer eof_token file.

Definition advance (lexer : Lexer) : Lexer :=
  match upcoming lexer with
  | [] => mkLexer eof_token []
  | t :: ts => mkLexer t ts
  end.

(** How a run of the parser can stop without returning. *)
Inductive Failure : Set :=
| ErrorToken (message : string)      (* error_token / a failed expectation *)
| AssertionFailed (message : string) (* assert(...) *)
| NullDereference                    (* an access through a null pointer *)
| OutOfFuel.                         (* the loop or recursion did not end *)

Inductive Outcome (A : Type) : Type :=
| Returned (a : A)
| Stopped (f : Failure).
Arguments Returned {A} a.
Arguments Stopped {A} f.

(** A parsing function: it reads and moves the lexer, and returns or
    stops. *)
Definition Parse (A : Type) : Type := Lexer -> Outcome (A * Lexer).

Definition ret {A} (a : A) : Parse A := fun lexer => Returned (a, lexer).

Definition bind {A B} (m : Parse A) (k : A -> Parse B) : Parse B :=
  fun lexer =>
    match m lexer with
    | Returned (a, lexer') => k a lexer'
    | Stopped f => Stopped f
    end.

Definition stop {A} (f : Failure) : Parse A := fun _ => Stopped f.

Declare Scope parse_scope.
Delimit Scope parse_scope with parse.
Bind Scope parse_scope with Parse.
Notation "x <- m ;; k" := (bind m (fun x => k))
  (at level 100, m at next level, right associativity) : parse_scope.
Notation "m ;;; k" := (bind m (fun _ => k))
  (at level 100, right associativity) : parse_scope.
Local Open Scope parse_scope.

(** [assert(cond && "message")]. *)
Definition assert (cond : bool) (message : string) : Parse unit :=
  if cond then ret tt else stop (AssertionFailed message).

(** Modelled from the spec: the token source boundary ([lexer.cpp] is
    missing).  [current()] returns the current token. *)
Definition get_current_token : Parse Token :=
  fun lexer => Returned (current_token lexer, lexer).

(** Modelled from the spec: [advance()] moves to the next token and returns
    the new current token. *)
Definition get_next_token : Parse Token :=
  fun lexer => Returned (current_token (advance lexer), advance lexer).

(** Modelled from the spec: [fail(message)] aborts parsing with a
    diagnostic. *)
Definition error_token {A} (message : string) : Parse A :=
  stop (ErrorToken message).

(** Modelled from the spec: [expect_and_advance(kind, message)] fails with
    [message] if the current token's kind does not match, and otherwise
    advances and returns the new current token. *)
Definition expect_and_get_next_token (type : TokenType.t) (message : string)
  : Parse Token :=
  fun lexer =>
    if TokenType.eqb (token_type (current_token lexer)) type
    then get_next_token lexer
    else Stopped (ErrorToken message).

(** ** Scopes *)

#[local] Unset Elimination Schemes.

(** [struct Scope]: two sets of names and the pointer to the enclosing
    scope, null for the global one. *)
Inductive Scope : Type := mkScope {
  variables : gset string;
  typedef_names : gset string;
  parent_scope : option Scope
}.
#[local] Set Elimination Schemes.

(** [Scope *]. *)
Abbreviation ScopePtr := (option Scope).

(** The body of the [for] loop of [variable_in_scope], from a scope that is
    not null. *)
Fixpoint variable_in_chain (variable_name : string) (current_scope : Scope)
  : bool :=
  if bool_decide (variable_name ∈ variables current_scope) then true
  else match parent_scope current_scope with
       | Some parent => variable_in_chain variable_name parent
       | None => false
       end.

Definition variable_in_scope (variable_name : string) (scope : ScopePtr)
  : bool :=
  match scope with
  | Some current_scope => variable_in_chain variable_name current_scope
  | None => false
  end.

Fixpoint typedef_name_in_chain (type_name : string) (current_scope : Scope)
  : bool :=
  if bool_decide (type_name ∈ typedef_names current_scope) then true
  else match parent_scope current_scope with
       | Some parent => typedef_name_in_chain type_name parent
       | None => false
       end.

Definition typedef_name_in_scope (type_name : string) (scope : ScopePtr)
  : bool :=
  match scope with
  | Some current_scope => typedef_name_in_chain type_name current_scope
  | None => false
  end.

(** ** The syntax tree *)

(** [enum class DataType]: the kinds [parser.cpp] names.  [type.h] is
    missing; [UnsignedLong] is modelled from the spec's suffix table. *)
Module DataType.
Inductive t : Set :=
| Void | Int | UnsignedInt | Long | UnsignedLong | LongLong
| UnsignedLongLong.
End DataType.

(** [enum class ASTNodeType], the kinds the sources name. *)
Module ASTNodeType.
Inductive t : Set :=
| Void | Declaration | NumericConstant | Multiplication.
End ASTNodeType.

(** [enum class FundamentalType]: the sources name [Function] only; the
    other tags are modelled from the spec's data model. *)
Module FundamentalType.
Inductive t : Set :=
| Void | Char | Short | Int | Long | Float | Double | Bool
| Struct | Union | Enum | TypedefName | Pointer | Array | Function.
End FundamentalType.

(** [struct Type]: the parser reads its [fundamental_type] only. *)
Record Type_ : Set := mkType { fundamental_type : FundamentalType.t }.

#[local] Unset Elimination Schemes.

(** [struct ASTNode] and [struct Object].  The nodes come from [malloc]:
    a pointer field the code has not written is modelled as null, the
    union [data_as] as the integer it holds.  An [ASTNode *] is an
    [option ASTNode]. *)
Inductive ASTNode : Set := mkASTNode {
  node_type : ASTNodeType.t;
  data_type : DataType.t;
  data_as : Z;
  lhs : option ASTNode;
  rhs : option ASTNode;
  next : option ASTNode;
  object : option Object
}
with Object : Set := mkObject {
  object_name : string;
  object_type : option Type_;
  function_body : option ASTNode
}.
#[local] Set Elimination Schemes.

Definition new_ast_node (type : ASTNodeType.t) : ASTNode :=
  mkASTNode type DataType.Void 0 None None None None.

Definition new_object : Object := mkObject "" None None.

Definition set_data (node : ASTNode) (type : DataType.t) (value : Z)
  : ASTNode :=
  mkASTNode (node_type node) type value (lhs node) (rhs node) (next node)
    (object node).

Definition set_rhs (node : ASTNode) (r : option ASTNode) : ASTNode :=
  mkASTNode (node_type node) (data_type node) (data_as node) (lhs node) r
    (next node) (object node).

Definition set_next (node : ASTNode) (n : option ASTNode) : ASTNode :=
  mkASTNode (node_type node) (data_type node) (data_as node) (lhs node)
    (rhs node) n (object node).

Definition set_object (node : ASTNode) (o : option Object) : ASTNode :=
  mkASTNode (node_type node) (data_type node) (data_as node) (lhs node)
    (rhs node) (next node) o.

Definition set_function_body (o : Object) (body : option ASTNode) : Object :=
  mkObject (object_name o) (object_type o) body.

(** ** 6.5.1 Primary expressions *)

Definition char_code (c : ascii) : Z := Z.of_N (N_of_ascii c).

Definition char_between (lo c hi : ascii) : bool :=
  ((char_code lo <=? char_code c) && (char_code c <=? char_code hi))%Z.

Definition hex_char_to_int (c : ascii) : Parse Z :=
  if char_between "0" c "9" then ret (char_code c - char_code "0")
  else if char_between "a" c "f" then ret (char_code c - char_code "a" + 10)
  else if char_between "A" c "F" then ret (char_code c - char_code "A" + 10)
  else stop (AssertionFailed "hex_char_to_int got invalid hex digit").

Definition decimal_to_int (c : ascii) : Parse Z :=
  assert (char_between "0" c "9") "c >= '0' && c <= '9'" ;;;
  ret (char_code c - char_code "0").

Definition octal_to_int (c : ascii) : Parse Z :=
  assert (char_between "0" c "7") "c >= '0' && c <= '7'" ;;;
  ret (char_code c - char_code "0").

Definition binary_to_int (c : ascii) : Parse Z :=
  assert (char_between "0" c "1") "c >= '0' && c <= '1'" ;;;
  ret (char_code c - char_code "0").

(** The value types of the accumulators, on the LP64 targets the project
    builds for: [int] and [unsigned] have 32 bits, [long], [long long] and
    [unsigned long long] 64.  An unsigned accumulator is reduced modulo
    [2^w]; for a signed one (where the C++ standard leaves an overflow
    undefined) the model takes the two's complement value. *)
Definition wrap_unsigned (w : Z) (z : Z) : Z := z mod 2 ^ w.
Definition wrap_signed (w : Z) (z : Z) : Z :=
  (z + 2 ^ (w - 1)) mod 2 ^ w - 2 ^ (w - 1).

Definition wrap_int := wrap_signed 32.
Definition wrap_unsigned_int := wrap_unsigned 32.
Definition wrap_long := wrap_signed 64.
Definition wrap_long_long := wrap_signed 64.
Definition wrap_unsigned_long_long := wrap_unsigned 64.

(** [for (; index < n; index++) value = value * base + f(string[index])],
    over the characters from [index] on, in the accumulator type given by
    [wrap]. *)
Fixpoint accumulate (wrap : Z -> Z) (base : Z)
    (char_to_int_function : ascii -> Parse Z) (digits : list ascii)
    (value : Z) : Parse Z :=
  match digits with
  | [] => ret value
  | c :: digits' =>
      d <- char_to_int_function c ;;
      accumulate wrap base char_to_int_function digits'
        (wrap (value * base + d))
  end.

(** [string[i]] for [i <= length]: the character, or the terminating
    null. *)
Definition char_at (s : list ascii) (i : nat) : ascii :=
  nth i s "000"%char.

Definition parse_number : Parse ASTNode :=
  current_token <- get_current_token ;;
  assert (TokenType.eqb (token_type current_token) TokenType.Number)
    "Parsing number but initial token type is not number" ;;;
  let str := list_ascii_of_string (token_string current_token) in
  let c0 := char_at str 0 in
  let '(base, index, char_to_int_function) :=
    if Ascii.eqb c0 "0" then
      let c1 := char_at str 1 in
      if Ascii.eqb c1 "x" then (16, 2%nat, hex_char_to_int)
      else if Ascii.eqb c1 "b" then (2, 2%nat, binary_to_int)
      else (8, 1%nat, octal_to_int)
    else (10, 0%nat, decimal_to_int) in
  let digits := drop index str in
  let number_node := new_ast_node ASTNodeType.NumericConstant in
  suffix <- get_next_token ;;
  match token_type suffix with
  | TokenType.IntegerSuffixl | TokenType.IntegerSuffixL =>
      value <- accumulate wrap_long base char_to_int_function digits 0 ;;
      ret (set_data number_node DataType.Long value)
  | TokenType.IntegerSuffixu | TokenType.IntegerSuffixU =>
      value <- accumulate wrap_unsigned_int base char_to_int_function
                 digits 0 ;;
      ret (set_data number_node DataType.UnsignedInt value)
  | TokenType.IntegerSuffixll | TokenType.IntegerSuffixLL =>
      value <- accumulate wrap_long_long base char_to_int_function
                 digits 0 ;;
      ret (set_data number_node DataType.LongLong value)
  | TokenType.IntegerSuffixull | TokenType.IntegerSuffixuLL
  | TokenType.IntegerSuffixllu | TokenType.IntegerSuffixLLu
  | TokenType.IntegerSuffixUll | TokenType.IntegerSuffixULL
  | TokenType.IntegerSuffixllU | TokenType.IntegerSuffixLLU =>
      value <- accumulate wrap_unsigned_long_long base char_to_int_function
                 digits 0 ;;
      ret (set_data number_node DataType.UnsignedLongLong value)
  | _ =>
      value <- accumulate wrap_int base char_to_int_function digits 0 ;;
      ret (set_data number_node DataType.Int value)
  end.

(** The [Identifier] case has no body and falls through to [Number]. *)
Definition parse_primary_expression (scope : ScopePtr) : Parse ASTNode :=
  token <- get_next_token ;;
  match token_type token with
  | TokenType.Identifier
  | TokenType.Number => parse_number
  | _ => stop (AssertionFailed "Default case in parse_primary_expression")
  end.

(** ** 6.5.5 Multiplicative expressions *)

Definition new_binary_expression_node (type : ASTNodeType.t)
    (lhs rhs : option ASTNode) : ASTNode :=
  mkASTNode type DataType.Void 0 lhs rhs None None.

Section Multiplicative.
(** [parse_cast_expression] is declared in [parser.cpp] and defined
    nowhere in the sources at hand. *)
Variable parse_cast_expression : Parse (option ASTNode).

(** Every branch of the [switch] inside [for (;;)] returns, so the body
    of the loop runs once. *)
Definition parse_multiplicative_expression : Parse (option ASTNode) :=
  cast_expr <- parse_cast_expression ;;
  token <- get_next_token ;;
  match token_type token with
  | TokenType.Asterisk =>
      rhs <- parse_cast_expression ;;
      ret (Some (new_binary_expression_node ASTNodeType.Multiplication
                   cast_expr rhs))
  | TokenType.ForwardSlash
  | TokenType.Modulo
  | _ => ret cast_expr
  end.
End Multiplicative.

(** ** What the parser calls and the sources do not define

    [update_declaration], [parse_expression], the two calls that turn
    folded specifiers into a type, the three-argument [parse_declarator]
    that [parse_translation_unit] calls (the one-argument
    [parse_declarator] of [parser.cpp] is modelled below) and
    [parse_rest_of_declaration] are declared in headers or defined in files
    that are not at hand.  They are the fields of an interface; everything
    below holds for each implementation of it. *)
Class Collaborators : Type := {
  (** [struct Declaration], named [DeclarationSpecifierFlags] in
      [parse_statements.cpp], and a default-constructed value of it *)
  Declaration : Type;
  empty_declaration : Declaration;
  (** [update_declaration(token, &declaration)]: returns the updated
      value, or stops *)
  update_declaration : Token -> Declaration -> Outcome Declaration;
  parse_expression : ScopePtr -> Parse (option ASTNode);
  fundamental_type_from_declaration : Declaration -> FundamentalType.t;
  get_fundamental_type_pointer : FundamentalType.t -> Type_;
  (** [parse_declarator(&lexer, type, &scope)] *)
  parse_declarator_of_type : Type_ -> ScopePtr -> Parse (option Object);
  (** [parse_rest_of_declaration(&lexer, &scope, ast_node)]: returns the
      node as the call leaves it *)
  parse_rest_of_declaration : ScopePtr -> ASTNode -> Parse ASTNode
}.

Definition lift {A} (o : Outcome A) : Parse A :=
  fun lexer =>
    match o with
    | Returned a => Returned (a, lexer)
    | Stopped f => Stopped f
    end.

(** ** 6.7 Declarations *)

Definition token_is_type_qualifier (token : Token) : bool :=
  match token_type token with
  | TokenType.Const
  | TokenType.Restrict
  | TokenType.Volatile
  | TokenType.Atomic => true
  | _ => false
  end.

Definition token_is_storage_class_specifier (token : Token) : bool :=
  match token_type token with
  | TokenType.Typedef
  | TokenType.Extern
  | TokenType.Static
  | TokenType.ThreadLocal
  | TokenType.Auto
  | TokenType.Register => true
  | _ => false
  end.

Definition token_is_alignment_specifier (token : Token) : bool :=
  TokenType.eqb (token_type token) TokenType.AlignAs.

Definition token_is_function_specifier (token : Token) : bool :=
  TokenType.eqb (token_type token) TokenType.Inline
  || TokenType.eqb (token_type token) TokenType.NoReturn.

Definition token_is_type_specifier (token : Token) (scope : ScopePtr)
  : bool :=
  match token_type token with
  | TokenType.Void
  | TokenType.Char
  | TokenType.Short
  | TokenType.Int
  | TokenType.Long
  | TokenType.Float
  | TokenType.Double
  | TokenType.Signed
  | TokenType.Unsigned
  | TokenType.Bool
  | TokenType.Complex
  | TokenType.Atomic
  | TokenType.Struct
  | TokenType.Enum
  | TokenType.Union => true
  | _ => typedef_name_in_scope (token_string token) scope
  end.

Definition token_is_declaration_specifier (token : Token) (scope : ScopePtr)
  : bool :=
  token_is_storage_class_specifier token
  || token_is_type_specifier token scope
  || token_is_type_qualifier token
  || token_is_function_specifier token
  || token_is_alignment_specifier token.

Section Declarations.
Context `{Collaborators}.

(** The [while] loop of [parse_declaration_specifiers]. *)
Fixpoint declaration_specifiers_loop (fuel : nat) (scope : ScopePtr)
    (current_token : Token) (declaration : Declaration)
  : Parse Declaration :=
  if token_is_declaration_specifier current_token scope then
    match fuel with
    | O => stop OutOfFuel
    | S fuel' =>
        declaration' <- lift (update_declaration current_token
                                declaration) ;;
        next_token <- get_next_token ;;
        declaration_specifiers_loop fuel' scope next_token declaration'
    end
  else ret declaration.

Definition parse_declaration_specifiers (fuel : nat) (scope : ScopePtr)
  : Parse Declaration :=
  current_token <- get_current_token ;;
  declaration_specifiers_loop fuel scope current_token empty_declaration.

(** The [while] loop of [parse_type_qualifier_list]; the [Declaration]
    it folds is local and dropped on return. *)
Fixpoint type_qualifier_list_loop (fuel : nat) (current_token : Token)
    (declaration : Declaration) : Parse unit :=
  if token_is_type_qualifier current_token then
    match fuel with
    | O => stop OutOfFuel
    | S fuel' =>
        declaration' <- lift (update_declaration current_token
                                declaration) ;;
        next_token <- get_next_token ;;
        type_qualifier_list_loop fuel' next_token declaration'
    end
  else ret tt.

Definition parse_type_qualifier_list (fuel : nat) : Parse unit :=
  current_token <- get_current_token ;;
  type_qualifier_list_loop fuel current_token empty_declaration.

(** pointer: [*] type-qualifier-list(opt), then another pointer(opt). *)
Fixpoint parse_pointer (fuel : nat) : Parse unit :=
  match fuel with
  | O => stop OutOfFuel
  | S fuel' =>
      token_after_asterisk <-
        expect_and_get_next_token TokenType.Asterisk
          "Parsing pointer, expected *" ;;
      if TokenType.eqb (token_type token_after_asterisk)
           TokenType.Asterisk
      then parse_pointer fuel'
      else if token_is_type_qualifier token_after_asterisk
      then parse_type_qualifier_list fuel'
      else ret tt
  end.

(** The body of [parse_direct_declarator], given the function it calls
    for a parenthesised declarator.  [None] is the end of the body
    reached without a [return]. *)
Definition direct_declarator_body (parse_declarator : Parse unit)
    (object : option Object) : Parse (option Object) :=
  current_token <- get_current_token ;;
  current_token <-
    (if TokenType.eqb (token_type current_token) TokenType.LParen then
       get_next_token ;;;
       parse_declarator ;;;
       expect_and_get_next_token TokenType.RParen
         "parse_direct_declarator expected RParen"
     else ret current_token) ;;
  if TokenType.eqb (token_type current_token) TokenType.Identifier then
    assert (negb (bool_decide (is_Some object)))
      "parse_direct_declarator: found identifier but object* is not null" ;;;
    let object :=
      mkObject (token_string current_token) (object_type new_object)
        (function_body new_object) in
    assert (negb (String.eqb (object_name object) ""))
      "parse_direct_declarator: assigned null name string to new object" ;;;
    token <- get_next_token ;;
    match token_type token with
    | TokenType.Semicolon
    | TokenType.Comma => ret (Some object)
    | TokenType.LBracket
    | TokenType.LParen =>
        token <- get_next_token ;;
        match token_type token with
        | TokenType.Identifier
        | TokenType.RParen => ret (Some object)
        | _ =>
            error_token "FIXME: default case in parse_direct_declarator"
        end
    | _ => error_token "FIXME: default case in parse_direct_declarator"
    end
  else ret None.

(** declarator: pointer(optional) direct-declarator.  The body of
    [parse_declarator] ends without a [return] statement: the model
    gives the call no result. *)
Fixpoint parse_declarator (fuel : nat) : Parse unit :=
  match fuel with
  | O => stop OutOfFuel
  | S fuel' =>
      current_token <- get_current_token ;;
      (if TokenType.eqb (token_type current_token) TokenType.Asterisk
       then get_next_token ;;; parse_pointer fuel'
       else ret tt) ;;;
      direct_declarator_body (parse_declarator fuel') None ;;;
      ret tt
  end.

Definition parse_direct_declarator (fuel : nat) (object : option Object)
  : Parse (option Object) :=
  direct_declarator_body (parse_declarator fuel) object.

(** [parse_initializer] has an empty body. *)
Definition parse_initializer : Parse unit := ret tt.

Definition parse_init_declarator (fuel : nat) : Parse ASTNode :=
  let ast_node := new_ast_node ASTNodeType.Declaration in
  parse_declarator fuel ;;;
  current_token <- get_current_token ;;
  (if TokenType.eqb (token_type current_token) TokenType.Equals
   then parse_initializer else ret tt) ;;;
  ret ast_node.

(** Nodes chained through [next]: each node's [next] is overwritten
    with the node that follows it; the last keeps the one it has. *)
Fixpoint link_chain (nodes : list ASTNode) : option ASTNode :=
  match nodes with
  | [] => None
  | [node] => Some node
  | node :: nodes' => Some (set_next node (link_chain nodes'))
  end.

(** The [while] loop of [parse_declaration]: [nodes] are the
    init-declarators chained behind [ast_node] so far. *)
Fixpoint declaration_loop (fuel : nat) (nodes : list ASTNode)
  : Parse (list ASTNode) :=
  current_token <- get_current_token ;;
  if TokenType.eqb (token_type current_token) TokenType.Semicolon
  then ret nodes
  else
    match fuel with
    | O => stop OutOfFuel
    | S fuel' =>
        node <- parse_init_declarator fuel' ;;
        declaration_loop fuel' (nodes ++ [node])
    end.

Definition parse_declaration (fuel : nat) (scope : ScopePtr)
  : Parse (option ASTNode) :=
  current_token <- get_current_token ;;
  assert (token_is_declaration_specifier current_token scope)
    "parse_declaration: starting but current token is not a declaration specifier" ;;;
  declaration <- parse_declaration_specifiers fuel scope ;;
  nodes <- declaration_loop fuel [] ;;
  ret (link_chain nodes).
End Declarations.

(** ** 6.8 Statements *)

Definition newline : string := String "010"%char EmptyString.

(** The [switch] of [parse_statement] over the parsers of the six
    statement forms.  (The node the function allocates first is never
    used, and the [return] after the [switch] is never reached.) *)
Section StatementSwitch.
Variables labeled compound selection iteration jump expression
  : ScopePtr -> Parse (option ASTNode).

Definition statement_switch (scope : ScopePtr) : Parse (option ASTNode) :=
  current_token <- get_current_token ;;
  match token_type current_token with
  | TokenType.Identifier
  | TokenType.Case
  | TokenType.Default => labeled scope
  | TokenType.LBrace => compound scope
  | TokenType.If
  | TokenType.Switch => selection scope
  | TokenType.While
  | TokenType.For
  | TokenType.Do => iteration scope
  | TokenType.GoTo
  | TokenType.Continue
  | TokenType.Break
  | TokenType.Return => jump scope
  | _ => expression scope
  end.
End StatementSwitch.

Definition parse_labeled_statement (scope : ScopePtr)
  : Parse (option ASTNode) :=
  let ast_node := new_ast_node ASTNodeType.Void in
  get_current_token ;;;
  ret (Some ast_node).

Definition parse_expression_statement (scope : ScopePtr)
  : Parse (option ASTNode) :=
  let ast_node := new_ast_node ASTNodeType.Void in
  get_current_token ;;;
  ret (Some ast_node).

Definition parse_selection_statement (scope : ScopePtr)
  : Parse (option ASTNode) :=
  let ast_node := new_ast_node ASTNodeType.Void in
  get_current_token ;;;
  ret (Some ast_node).

Definition parse_iteration_statement (scope : ScopePtr)
  : Parse (option ASTNode) :=
  let ast_node := new_ast_node ASTNodeType.Void in
  get_current_token ;;;
  ret (Some ast_node).

(** The body of [parse_compound_statement] over the two parsers it calls
    for the items of the block. *)
Section CompoundStatement.
Variable declaration : ScopePtr -> Parse (option ASTNode).
Variable statement : ScopePtr -> Parse (option ASTNode).

(** [previous_ast_node->next = current_ast_node;
     previous_ast_node = previous_ast_node->next;]
    [nodes] are the nodes chained behind the anchor, [previous_null]
    tells that [previous_ast_node] has become null. *)
Definition chain_node (nodes : list ASTNode) (previous_null : bool)
    (current_ast_node : option ASTNode) : Parse (list ASTNode * bool) :=
  if previous_null then stop NullDereference
  else
    match current_ast_node with
    | Some node => ret ((nodes ++ [node])%list, false)
    | None =>
        ret (match reverse nodes with
             | [] => []
             | last :: front => reverse (set_next last None :: front)
             end, true)
    end.

Fixpoint compound_statement_loop (fuel : nat) (scope : ScopePtr)
    (nodes : list ASTNode) (previous_null : bool)
  : Parse (list ASTNode) :=
  current_token <- get_current_token ;;
  if negb (TokenType.eqb (token_type current_token) TokenType.RBrace)
  then
    match fuel with
    | O => stop OutOfFuel
    | S fuel' =>
        current_ast_node <-
          (if token_is_declaration_specifier current_token scope
           then declaration scope
           else statement scope) ;;
        chained <- chain_node nodes previous_null current_ast_node ;;
        compound_statement_loop fuel' scope (fst chained) (snd chained)
    end
  else ret nodes.

Definition compound_statement_body (fuel : nat) (scope : ScopePtr)
  : Parse (option ASTNode) :=
  current_token <- get_current_token ;;
  assert (TokenType.eqb (token_type current_token) TokenType.LBrace)
    "get_current_token(lexer)->type == TokenType::LBrace" ;;;
  get_next_token ;;;
  nodes <- compound_statement_loop fuel scope [] false ;;
  current_token <- get_current_token ;;
  assert (TokenType.eqb (token_type current_token) TokenType.RBrace)
    "get_current_token(lexer)->type == TokenType::RBrace" ;;;
  get_next_token ;;;
  ret (link_chain nodes).
End CompoundStatement.

Section Statements.
Context `{Collaborators}.

(** The statements [expect_and_get_next_token(...); break;] of the cases
    [Continue] and [Break]. *)
Definition jump_semicolon (ast_node : ASTNode)
  : Parse (option ASTNode) :=
  expect_and_get_next_token TokenType.Semicolon
    ("Expected semicolon after jump statement" ++ newline) ;;;
  ret (Some ast_node).

(** The block of the case [Return], which then falls through. *)
Definition jump_return (scope : ScopePtr) (ast_node : ASTNode)
  : Parse (option ASTNode) :=
  get_next_token ;;;
  current_token <- get_current_token ;;
  ast_node <-
    (if negb (TokenType.eqb (token_type current_token)
                TokenType.Semicolon)
     then
       return_value_node <- parse_expression scope ;;
       ret (set_rhs ast_node return_value_node)
     else ret ast_node) ;;
  jump_semicolon ast_node.

(** The [get_next_token(lexer);] written between [switch (...) {] and the
    first [case] label is never executed.  The block of the case [GoTo]
    falls through to [Return]. *)
Definition parse_jump_statement (scope : ScopePtr)
  : Parse (option ASTNode) :=
  let ast_node := new_ast_node ASTNodeType.Void in
  current_token <- get_current_token ;;
  match token_type current_token with
  | TokenType.GoTo =>
      identifier_token <- get_current_token ;;
      (if negb (TokenType.eqb (token_type identifier_token)
                  TokenType.Identifier)
       then error_token ("Expected identifier after goto" ++ newline)
       else ret tt) ;;;
      jump_return scope ast_node
  | TokenType.Return => jump_return scope ast_node
  | TokenType.Continue
  | TokenType.Break => jump_semicolon ast_node
  | _ => assert false "false" ;;; ret (Some ast_node)
  end.

(** [parse_statement] and [parse_compound_statement] call each other. *)
Fixpoint parse_statement (fuel : nat) (scope : ScopePtr)
  : Parse (option ASTNode) :=
  match fuel with
  | O => stop OutOfFuel
  | S fuel' =>
      statement_switch
        parse_labeled_statement
        (compound_statement_body (parse_declaration fuel')
           (parse_statement fuel') fuel')
        parse_selection_statement
        parse_iteration_statement
        parse_jump_statement
        parse_expression_statement
        scope
  end.

Definition parse_compound_statement (fuel : nat) (scope : ScopePtr)
  : Parse (option ASTNode) :=
  compound_statement_body (parse_declaration fuel) (parse_statement fuel)
    fuel scope.
End Statements.

(** ** Translation units *)

Module ExternalDeclarationType.
Inductive t : Set := Declaration | FunctionDefinition.
End ExternalDeclarationType.

(** [struct ExternalDeclaration].  The chain its [next] field builds is the
    list the driver returns. *)
Record ExternalDeclaration : Set := mkExternalDeclaration {
  root_ast_node : option ASTNode;
  external_type : ExternalDeclarationType.t
}.

Definition new_external_declaration (type : ExternalDeclarationType.t)
    (head_node : option ASTNode) : ExternalDeclaration :=
  mkExternalDeclaration head_node type.

Section TranslationUnit.
Context `{Collaborators}.

Definition declaration_to_fundamental_type (declaration : Declaration)
  : Type_ :=
  let fundamental_type := fundamental_type_from_declaration declaration in
  get_fundamental_type_pointer fundamental_type.

(** [ptr->field] on a pointer that may be null. *)
Definition deref {A} (ptr : option A) : Parse A :=
  match ptr with
  | Some a => ret a
  | None => stop NullDereference
  end.

(** The body of the [for] loop of [parse_translation_unit]: one external
    declaration. *)
Definition parse_external_declaration (fuel : nat) (scope : ScopePtr)
  : Parse ExternalDeclaration :=
  current_token <- get_current_token ;;
  (if negb (token_is_declaration_specifier current_token scope)
   then error_token ("Expected declaration specifier" ++ newline)
   else ret tt) ;;;
  declaration_specifiers <- parse_declaration_specifiers fuel scope ;;
  let fundamental_type_ptr :=
    declaration_to_fundamental_type declaration_specifiers in
  let ast_node := new_ast_node ASTNodeType.Declaration in
  declared <- parse_declarator_of_type fundamental_type_ptr scope ;;
  let ast_node := set_object ast_node declared in
  entity <- deref declared ;;
  type <- deref (object_type entity) ;;
  let rest_of_declaration :=
    ast_node <- parse_rest_of_declaration scope ast_node ;;
    ret (new_external_declaration ExternalDeclarationType.Declaration
           (Some ast_node)) in
  match fundamental_type type with
  | FundamentalType.Function =>
      current_token <- get_current_token ;;
      if TokenType.eqb (token_type current_token) TokenType.LBrace then
        body <- parse_compound_statement fuel scope ;;
        let ast_node :=
          set_object ast_node (Some (set_function_body entity body)) in
        ret (new_external_declaration
               ExternalDeclarationType.FunctionDefinition (Some ast_node))
      else rest_of_declaration
  | _ => rest_of_declaration
  end.

Fixpoint translation_unit_loop (fuel : nat) (scope : ScopePtr)
    (declarations : list ExternalDeclaration)
  : Parse (list ExternalDeclaration) :=
  current_token <- get_current_token ;;
  if negb (TokenType.eqb (token_type current_token) TokenType.Eof) then
    match fuel with
    | O => stop OutOfFuel
    | S fuel' =>
        current_declaration <- parse_external_declaration fuel' scope ;;
        translation_unit_loop fuel' scope
          (declarations ++ [current_declaration])
    end
  else ret declarations.

(** The scope of the translation unit: [Scope current_scope;] with
    [parent_scope = nullptr]. *)
Definition global_scope : Scope := mkScope ∅ ∅ None.

Definition parse_translation_unit (fuel : nat) (file : list Token)
  : Outcome (list ExternalDeclaration) :=
  match (get_next_token ;;;
         translation_unit_loop fuel (Some global_scope) [])
          (new_lexer file) with
  | Returned (declarations, _) => Returned declarations
  | Stopped f => Stopped f
  end.
End TranslationUnit.

(** ** Further functions of [parser.cpp] *)

Definition is_unary_operator (token : Token) : bool :=
match token_type token with
| TokenType.Ampersand | TokenType.Asterisk | TokenType.Plus
| TokenType.Minus | TokenType.Tilde | TokenType.Bang => true
| _ => false
end.

Definition is_assignment_operator (token : Token) : bool :=
match token_type token with
| TokenType.Equals | TokenType.TimesEquals | TokenType.DividedByEquals
| TokenType.ModuloEquals | TokenType.PlusEquals | TokenType.MinusEquals
| TokenType.BitShiftLeftEquals | TokenType.BitShiftRightEquals
| TokenType.BitwiseAndEquals | TokenType.XorEquals
| TokenType.BitwiseOrEquals => true
| _ => false
end.

Definition token_is_specifier_or_qualifier (token : Token)
    (scope : ScopePtr) : bool :=
token_is_type_specifier token scope || token_is_type_qualifier token.

(** [parse_parameter_type_list]: the [switch] has the one case [Ellipsis];
    the [FunctionType *] argument is not used. *)
Definition parse_parameter_type_list : Parse unit :=
current_token <- get_current_token ;;
assert (TokenType.eqb (token_type current_token) TokenType.LParen)
  "get_current_token(lexer)->type == TokenType::LParen" ;;;
token <- get_next_token ;;
match token_type token with
| TokenType.Ellipsis =>
    expect_and_get_next_token TokenType.RParen
      "Expected RParen after ellipsis in variadic argument" ;;;
    ret tt
| _ => ret tt
end.

Section TypeNames.
Context `{Collaborators}.

(** The [while] loop of [parse_specifier_qualifier_list]. *)
Fixpoint specifier_qualifier_loop (fuel : nat) (scope : ScopePtr)
    (current_token : Token) (declaration : Declaration)
  : Parse Declaration :=
if token_is_specifier_or_qualifier current_token scope then
  match fuel with
  | O => stop OutOfFuel
  | S fuel' =>
      declaration' <- lift (update_declaration current_token
                              declaration) ;;
      next_token <- get_next_token ;;
      specifier_qualifier_loop fuel' scope next_token declaration'
  end
else ret declaration.

(** It starts from [get_next_token], not from the current token. *)
Definition parse_specifier_qualifier_list (fuel : nat) (scope : ScopePtr)
  : Parse Declaration :=
current_token <- get_next_token ;;
specifier_qualifier_loop fuel scope current_token empty_declaration.

(** [struct AbstractType] and [new_abstract_type] are declared in a
    header that is not at hand. *)
Variable AbstractType : Type.
Variable new_abstract_type : AbstractType.

Definition parse_abstract_declarator (fuel : nat) : Parse AbstractType :=
let abstract_type := new_abstract_type in
current_token <- get_current_token ;;
(if TokenType.eqb (token_type current_token) TokenType.Asterisk
 then parse_pointer fuel else ret tt) ;;;
ret abstract_type.
End TypeNames.

(** ** Notions used to state the properties *)

(** The scopes a lookup from [scope] visits, innermost first. *)
Fixpoint scope_chain (scope : Scope) : list Scope :=
  scope :: match parent_scope scope with
           | Some parent => scope_chain parent
           | None => []
           end.

Definition scopes_from (scope : ScopePtr) : list Scope :=
  match scope with
  | Some current_scope => scope_chain current_scope
  | None => []
  end.

(** The lexer that looks at the first of [tokens] and has the others to
    come; past the last token it looks at the end-of-input token. *)
Definition lexer_at (tokens : list Token) : Lexer :=
  match tokens with
  | [] => mkLexer eof_token []
  | t :: ts => mkLexer t ts
  end.

(** The tokens from the current one on. *)
Definition tokens_from (lexer : Lexer) : list Token :=
  current_token lexer :: upcoming lexer.

(** The longest run of declaration specifiers at the head of [tokens], and
    what follows it. *)
Fixpoint specifier_run (scope : ScopePtr) (tokens : list Token)
  : list Token :=
  match tokens with
  | t :: ts =>
      if token_is_declaration_specifier t scope
      then t :: specifier_run scope ts else []
  | [] => []
  end.

Fixpoint after_specifier_run (scope : ScopePtr) (tokens : list Token)
  : list Token :=
  match tokens with
  | t :: ts =>
      if token_is_declaration_specifier t scope
      then after_specifier_run scope ts else tokens
  | [] => []
  end.

(** [update_declaration] applied to the tokens of a run, first to last. *)
Fixpoint fold_declaration `{Collaborators} (tokens : list Token)
    (declaration : Declaration) : Outcome Declaration :=
  match tokens with
  | [] => Returned declaration
  | t :: ts =>
      match update_declaration t declaration with
      | Returned declaration' => fold_declaration ts declaration'
      | Stopped f => Stopped f
      end
  end.

(** The keywords [token_is_type_specifier] lists. *)
Definition keyword_type_specifier (kind : TokenType.t) : bool :=
  match kind with
  | TokenType.Void | TokenType.Char | TokenType.Short | TokenType.Int
  | TokenType.Long | TokenType.Float | TokenType.Double | TokenType.Signed
  | TokenType.Unsigned | TokenType.Bool | TokenType.Complex
  | TokenType.Atomic | TokenType.Struct | TokenType.Enum
  | TokenType.Union => true
  | _ => false
  end.

(** The suffix kinds [parse_number] has a case for. *)
Definition listed_integer_suffix (kind : TokenType.t) : bool :=
  match kind with
  | TokenType.IntegerSuffixl | TokenType.IntegerSuffixL
  | TokenType.IntegerSuffixu | TokenType.IntegerSuffixU
  | TokenType.IntegerSuffixll | TokenType.IntegerSuffixLL
  | TokenType.IntegerSuffixull | TokenType.IntegerSuffixuLL
  | TokenType.IntegerSuffixllu | TokenType.IntegerSuffixLLu
  | TokenType.IntegerSuffixUll | TokenType.IntegerSuffixULL
  | TokenType.IntegerSuffixllU | TokenType.IntegerSuffixLLU => true
  | _ => false
  end.

(** The data type of the node [parse_number] builds, by the kind of the
    token that follows the number: the cases of its [switch]. *)
Definition suffix_data_type (kind : TokenType.t) : DataType.t :=
  match kind with
  | TokenType.IntegerSuffixl | TokenType.IntegerSuffixL => DataType.Long
  | TokenType.IntegerSuffixu | TokenType.IntegerSuffixU =>
      DataType.UnsignedInt
  | TokenType.IntegerSuffixll | TokenType.IntegerSuffixLL =>
      DataType.LongLong
  | TokenType.IntegerSuffixull | TokenType.IntegerSuffixuLL
  | TokenType.IntegerSuffixllu | TokenType.IntegerSuffixLLu
  | TokenType.IntegerSuffixUll | TokenType.IntegerSuffixULL
  | TokenType.IntegerSuffixllU | TokenType.IntegerSuffixLLU =>
      DataType.UnsignedLongLong
  | _ => DataType.Int
  end.

(** The translation unit in the words of the specification: what one
    external declaration is, and what the list of them is. *)
Section TranslationUnitSpec.
Context `{Collaborators}.
Variable scope : ScopePtr.

Inductive external_declaration_parsed
  : Lexer -> ExternalDeclaration -> Lexer -> Prop :=
| parsed_function_definition
    lexer fuel specifiers after_specifiers entity type after_declarator
    fuel' body after_body :
    token_is_declaration_specifier (current_token lexer) scope = true ->
    parse_declaration_specifiers fuel scope lexer
    = Returned (specifiers, after_specifiers) ->
    parse_declarator_of_type
      (declaration_to_fundamental_type specifiers) scope after_specifiers
    = Returned (Some entity, after_declarator) ->
    object_type entity = Some type ->
    (** the entity is a function and the next token is [{] *)
    fundamental_type type = FundamentalType.Function ->
    token_type (current_token after_declarator) = TokenType.LBrace ->
    (** its body is a compound statement *)
    parse_compound_statement fuel' scope after_declarator
    = Returned (body, after_body) ->
    external_declaration_parsed lexer
      (mkExternalDeclaration
         (Some (set_object (new_ast_node ASTNodeType.Declaration)
                  (Some (set_function_body entity body))))
         ExternalDeclarationType.FunctionDefinition)
      after_body
| parsed_declaration
    lexer fuel specifiers after_specifiers entity type after_declarator
    node after_rest :
    token_is_declaration_specifier (current_token lexer) scope = true ->
    parse_declaration_specifiers fuel scope lexer
    = Returned (specifiers, after_specifiers) ->
    parse_declarator_of_type
      (declaration_to_fundamental_type specifiers) scope after_specifiers
    = Returned (Some entity, after_declarator) ->
    object_type entity = Some type ->
    (** otherwise *)
    ~ (fundamental_type type = FundamentalType.Function
       /\ token_type (current_token after_declarator)
          = TokenType.LBrace) ->
    (** the rest of the init-declarator-list is parsed *)
    parse_rest_of_declaration scope
      (set_object (new_ast_node ASTNodeType.Declaration) (Some entity))
      after_declarator
    = Returned (node, after_rest) ->
    external_declaration_parsed lexer
      (mkExternalDeclaration (Some node)
         ExternalDeclarationType.Declaration)
      after_rest.

(** The external declarations from [lexer] to the end of the input, in
    source order. *)
Inductive translation_unit_parsed
  : Lexer -> list ExternalDeclaration -> Prop :=
| parsed_end_of_input lexer :
    token_type (current_token lexer) = TokenType.Eof ->
    translation_unit_parsed lexer []
| parsed_external_declaration lexer first lexer' others :
    token_type (current_token lexer) <> TokenType.Eof ->
    external_declaration_parsed lexer first lexer' ->
    translation_unit_parsed lexer' others ->
    translation_unit_parsed lexer (first :: others).
End TranslationUnitSpec.

(** [p] returns nothing that [q] does not return as well. *)
Definition below {A} (p q : Parse A) : Prop :=
  forall lexer r, p lexer = Returned r -> q lexer = Returned r.

(** ** Sample inputs

    An implementation of [Collaborators] to run the parser on token lists:
    the folded specifiers are the list of the specifier tokens; an
    expression is one token; a declarator is a name, or a name followed by
    [( )], which declares a function; the rest of a declaration is its
    [;]. *)
Definition sample_declarator (type : Type_) (scope : ScopePtr)
  : Parse (option Object) :=
  name <- get_current_token ;;
  (if TokenType.eqb (token_type name) TokenType.Identifier then ret tt
   else error_token "sample_declarator: expected a name") ;;;
  token <- get_next_token ;;
  if TokenType.eqb (token_type token) TokenType.LParen then
    get_next_token ;;;
    expect_and_get_next_token TokenType.RParen
      "sample_declarator: expected )" ;;;
    ret (Some (mkObject (token_string name)
                 (Some (mkType FundamentalType.Function)) None))
  else ret (Some (mkObject (token_string name) (Some type) None)).

Definition sample_collaborators : Collaborators := {|
  Declaration := list Token;
  empty_declaration := [];
  update_declaration t d := Returned (d ++ [t])%list;
  parse_expression _ :=
    get_next_token ;;; ret (Some (new_ast_node ASTNodeType.Void));
  fundamental_type_from_declaration _ := FundamentalType.Int;
  get_fundamental_type_pointer := mkType;
  parse_declarator_of_type := sample_declarator;
  parse_rest_of_declaration _ node :=
    expect_and_get_next_token TokenType.Semicolon
      "sample: expected ;" ;;;
    ret node
|}.

(** The only operand parser the sources define: [parse_cast_expression]
    taken to be [parse_primary_expression] (the levels between them have no
    body). *)
Definition primary_operand : Parse (option ASTNode) :=
  node <- parse_primary_expression None ;;
  ret (Some node).

(** An operand parser that fits the token discipline of
    [parse_multiplicative_expression]: it moves to the next token, which
    must be a number, and stays on it. *)
Definition number_operand : Parse (option ASTNode) :=
  token <- get_next_token ;;
  if TokenType.eqb (token_type token) TokenType.Number then
    ret (Some (mkASTNode ASTNodeType.NumericConstant DataType.Int
                 (char_code (char_at (list_ascii_of_string
                                        (token_string token)) 0)
                  - char_code "0")
                 None None None None))
  else error_token "number_operand: expected a number".

Module Sample.
Definition tok (kind : TokenType.t) (lexeme : string) : Token :=
  mkToken kind lexeme.
Definition identifier (name : string) : Token :=
  mkToken TokenType.Identifier name.
Definition number (digits : string) : Token :=
  mkToken TokenType.Number digits.
Definition asterisk := tok TokenType.Asterisk "*".
Definition slash := tok TokenType.ForwardSlash "/".
Definition equals := tok TokenType.Equals "=".
Definition semicolon := tok TokenType.Semicolon ";".
Definition lparen := tok TokenType.LParen "(".
Definition rparen := tok TokenType.RParen ")".
Definition lbracket := tok TokenType.LBracket "[".
Definition rbracket := tok (TokenType.Other "RBracket") "]".
Definition lbrace := tok TokenType.LBrace "{".
Definition rbrace := tok TokenType.RBrace "}".
Definition kw_int := tok TokenType.Int "int".
Definition kw_atomic := tok TokenType.Atomic "_Atomic".
Definition kw_goto := tok TokenType.GoTo "goto".
Definition kw_return := tok TokenType.Return "return".
Definition suffix_UL := tok (TokenType.Other "IntegerSuffixUL") "UL".

(** A scope chain: [T] is a typedef name of the outer scope and a
    variable of the inner one. *)
Definition outer : Scope := mkScope ∅ {["T"]} None.
Definition inner : Scope := mkScope {["T"]} ∅ (Some outer).

(** [0x10UL ;] with the lexer on the number. *)
Definition literal_0x10UL : Lexer :=
  lexer_at [number "0x10"; suffix_UL; semicolon].
Definition int_16 : ASTNode :=
  mkASTNode ASTNodeType.NumericConstant DataType.Int 16
    None None None None.

(** [= x ;] with the lexer on [=], before the primary expression [x]. *)
Definition before_x : Lexer :=
  lexer_at [equals; identifier "x"; semicolon].

(** [= 1 * 2 / 3 ;] with the lexer on [=], before the expression. *)
Definition before_1_times_2_over_3 : Lexer :=
  lexer_at [equals; number "1"; asterisk; number "2"; slash; number "3";
            semicolon].
Definition int_1 : ASTNode :=
  mkASTNode ASTNodeType.NumericConstant DataType.Int 1
    None None None None.
Definition int_2 : ASTNode :=
  mkASTNode ASTNodeType.NumericConstant DataType.Int 2
    None None None None.

(** [goto L ;], [goto 5 ;] and [x = 1 ;] with the lexer on the first
    token. *)
Definition goto_L : Lexer := lexer_at [kw_goto; identifier "L"; semicolon].
Definition goto_5 : Lexer := lexer_at [kw_goto; number "5"; semicolon].
Definition x_equals_1 : Lexer :=
  lexer_at [identifier "x"; equals; number "1"; semicolon].

(** The declarators [*a[3] ;], [( *a )[3] ;] and [a[3] ;]. *)
Definition pointer_a_3 : Lexer :=
  lexer_at [asterisk; identifier "a"; lbracket; number "3"; rbracket;
            semicolon].
Definition paren_pointer_a_3 : Lexer :=
  lexer_at [lparen; asterisk; identifier "a"; rparen; lbracket;
            number "3"; rbracket; semicolon].
Definition a_3 : Lexer :=
  lexer_at [identifier "a"; lbracket; number "3"; rbracket; semicolon].

(** [int T x ;] with the lexer on [int]. *)
Definition int_T_x : Lexer :=
  lexer_at [kw_int; identifier "T"; identifier "x"; semicolon].

(** [{ x }] with the lexer on the brace. *)
Definition block_x : Lexer := lexer_at [lbrace; identifier "x"; rbrace].

(** The files [int f() { return x; } int g();] and [int f(); int g() {}]. *)
Definition definition_then_declaration : list Token :=
  [kw_int; identifier "f"; lparen; rparen; lbrace; kw_return;
   identifier "x"; semicolon; rbrace;
   kw_int; identifier "g"; lparen; rparen; semicolon].
Definition function_object (name : string) (body : option ASTNode)
  : Object :=
  mkObject name (Some (mkType FundamentalType.Function)) body.
Definition declaration_of (entity : Object) : ASTNode :=
  mkASTNode ASTNodeType.Declaration DataType.Void 0 None None None
    (Some entity).
Definition return_x : ASTNode :=
  mkASTNode ASTNodeType.Void DataType.Void 0 None
    (Some (new_ast_node ASTNodeType.Void)) None None.
End Sample.

(** A statement parser that tells a scope with a parent from one without:
    in the first it reads one token, in the second it stops. *)
Definition scope_probe (scope : ScopePtr) : Parse (option ASTNode) :=
  match scope with
  | Some current_scope =>
      match parent_scope current_scope with
      | Some _ => get_next_token ;;; ret (Some (new_ast_node ASTNodeType.Void))
      | None => error_token "scope_probe: the scope has no parent"
      end
  | None => error_token "scope_probe: no scope"
  end.

(** ** Further notions and sample inputs *)

(** The value of a digit, for the digits of all four bases. *)
Definition digit_value (c : ascii) : Z :=
  if char_between "0" c "9" then char_code c - char_code "0"
  else if char_between "a" c "f" then char_code c - char_code "a" + 10
  else if char_between "A" c "F" then char_code c - char_code "A" + 10
  else 0.

(** The number a string of digits denotes in a base, without any
    wrap-around, reading on from [value]. *)
Definition positional_value (base : Z) (digits : list ascii) (value : Z)
  : Z :=
  fold_left (fun value c => value * base + digit_value c) digits value.

(** The base and the digits of a literal, by its prefix: [0x], [0b], a
    leading [0], or none. *)
Definition literal_base (text : list ascii) : Z :=
  if Ascii.eqb (char_at text 0) "0" then
    if Ascii.eqb (char_at text 1) "x" then 16
    else if Ascii.eqb (char_at text 1) "b" then 2
    else 8
  else 10.

Definition literal_digits (text : list ascii) : list ascii :=
  if Ascii.eqb (char_at text 0) "0" then
    if Ascii.eqb (char_at text 1) "x" then drop 2 text
    else if Ascii.eqb (char_at text 1) "b" then drop 2 text
    else drop 1 text
  else text.

(** The accumulator type [parse_number] uses, by the kind of the token
    that follows the number. *)
Definition suffix_wrap (kind : TokenType.t) : Z -> Z :=
  match kind with
  | TokenType.IntegerSuffixl | TokenType.IntegerSuffixL => wrap_long
  | TokenType.IntegerSuffixu | TokenType.IntegerSuffixU =>
      wrap_unsigned_int
  | TokenType.IntegerSuffixll | TokenType.IntegerSuffixLL =>
      wrap_long_long
  | TokenType.IntegerSuffixull | TokenType.IntegerSuffixuLL
  | TokenType.IntegerSuffixllu | TokenType.IntegerSuffixLLu
  | TokenType.IntegerSuffixUll | TokenType.IntegerSuffixULL
  | TokenType.IntegerSuffixllU | TokenType.IntegerSuffixLLU =>
      wrap_unsigned_long_long
  | _ => wrap_int
  end.

(** The keywords that are declaration specifiers whatever the scope. *)
Definition specifier_keyword (kind : TokenType.t) : bool :=
  match kind with
  | TokenType.Typedef | TokenType.Extern | TokenType.Static
  | TokenType.ThreadLocal | TokenType.Auto
  | TokenType.Register
  | TokenType.Const | TokenType.Restrict | TokenType.Volatile
  | TokenType.Atomic
  | TokenType.Void | TokenType.Char | TokenType.Short | TokenType.Int
  | TokenType.Long | TokenType.Float | TokenType.Double | TokenType.Signed
  | TokenType.Unsigned | TokenType.Bool | TokenType.Complex
  | TokenType.Struct | TokenType.Enum | TokenType.Union
  | TokenType.Inline | TokenType.NoReturn | TokenType.AlignAs => true
  | _ => false
  end.

(** The kinds of first token for which [parse_statement] calls one of the
    four statement parsers that read nothing. *)
Definition reads_no_token (kind : TokenType.t) : bool :=
  match kind with
  | TokenType.LBrace | TokenType.GoTo | TokenType.Continue
  | TokenType.Break | TokenType.Return => false
  | _ => true
  end.

(** The longest run of type specifiers and qualifiers at the head of
    [tokens], and what follows it. *)
Fixpoint specifier_qualifier_run (scope : ScopePtr) (tokens : list Token)
  : list Token :=
  match tokens with
  | t :: ts =>
      if token_is_specifier_or_qualifier t scope
      then t :: specifier_qualifier_run scope ts else []
  | [] => []
  end.

Fixpoint after_specifier_qualifier_run (scope : ScopePtr)
    (tokens : list Token) : list Token :=
  match tokens with
  | t :: ts =>
      if token_is_specifier_or_qualifier t scope
      then after_specifier_qualifier_run scope ts else tokens
  | [] => []
  end.

Module More.
Definition kw_const := Sample.tok TokenType.Const "const".
Definition kw_volatile := Sample.tok TokenType.Volatile "volatile".
Definition kw_continue := Sample.tok TokenType.Continue "continue".
Definition comma := Sample.tok TokenType.Comma ",".
Definition ellipsis := Sample.tok TokenType.Ellipsis "...".

(** [4294967297u ;]: one more than [2^32], unsigned. *)
Definition literal_wraps : Lexer :=
  lexer_at [Sample.number "4294967297";
            Sample.tok TokenType.IntegerSuffixu "u"; Sample.semicolon].
Definition unsigned_1 : ASTNode :=
  mkASTNode ASTNodeType.NumericConstant DataType.UnsignedInt 1
    None None None None.

(** [0X1F ;], with an upper-case prefix. *)
Definition literal_0X1F : Lexer :=
  lexer_at [Sample.number "0X1F"; Sample.semicolon].

(** [= 7 ;] with the lexer on [=], before the constant. *)
Definition before_7 : Lexer :=
  lexer_at [Sample.equals; Sample.number "7"; Sample.semicolon].
Definition int_7 : ASTNode :=
  mkASTNode ASTNodeType.NumericConstant DataType.Int 7
    None None None None.

(** A chain of three scopes; [T] is a typedef name of the outermost. *)
Definition innermost : Scope := mkScope ∅ ∅ (Some Sample.inner).

(** [* * const volatile * x ;] with the lexer on the first [*]. *)
Definition pointer_run : list Token :=
  [Sample.asterisk; Sample.asterisk].
Definition qualifier_run : list Token := [kw_const; kw_volatile].
Definition after_pointer : list Token :=
  [Sample.asterisk; Sample.identifier "x"; Sample.semicolon].

(** [x , y ;] and [, y ;]. *)
Definition x_comma_y : Lexer :=
  lexer_at [Sample.identifier "x"; comma; Sample.identifier "y";
            Sample.semicolon].
Definition comma_y : Lexer :=
  lexer_at [comma; Sample.identifier "y"; Sample.semicolon].

(** [{ x = 1 ; }], [{ }], [{ int x ; }]. *)
Definition block_assignment : Lexer :=
  lexer_at [Sample.lbrace; Sample.identifier "x"; Sample.equals;
            Sample.number "1"; Sample.semicolon; Sample.rbrace].
Definition empty_block : Lexer :=
  lexer_at [Sample.lbrace; Sample.rbrace; Sample.semicolon].
Definition block_declaration : Lexer :=
  lexer_at [Sample.lbrace; Sample.kw_int; Sample.identifier "x";
            Sample.semicolon; Sample.rbrace].

(** [return ;], [return x ;], [continue ;]. *)
Definition return_nothing : Lexer :=
  lexer_at [Sample.kw_return; Sample.semicolon; Sample.rbrace].
Definition return_value : Lexer :=
  lexer_at [Sample.kw_return; Sample.identifier "x"; Sample.semicolon;
            Sample.rbrace].
Definition continue_statement : Lexer :=
  lexer_at [kw_continue; Sample.semicolon].

(** [( const int x )] with the lexer on [(], and [( ... )]. *)
Definition cast_const_int : Lexer :=
  lexer_at [Sample.lparen; kw_const; Sample.kw_int; Sample.identifier "x";
            Sample.rparen].
Definition lone_ellipsis : Lexer :=
  lexer_at [Sample.lparen; ellipsis; Sample.rparen].
Definition parameters_int : Lexer :=
  lexer_at [Sample.lparen; Sample.kw_int; Sample.rparen].

(** The file [x = 1 ;]. *)
Definition stray_statement : list Token :=
  [Sample.identifier "x"; Sample.equals; Sample.number "1";
   Sample.semicolon].
End More.

(** * Properties *)

(** ** The monad *)

Lemma TokenType_eqb_refl k : TokenType.eqb k k = true.
Proof. destruct k; try reflexivity. simpl. apply String.eqb_refl. Qed.

Lemma TokenType_eqb_eq a b : TokenType.eqb a b = true <-> a = b.
Proof.
  split; [| intros ->; apply TokenType_eqb_refl].
  destruct a, b; simpl; try discriminate; try reflexivity.
  intros E. apply String.eqb_eq in E. congruence.
Qed.

Lemma TokenType_eqb_neq a b : TokenType.eqb a b = false <-> a <> b.
Proof.
  rewrite <- TokenType_eqb_eq. destruct (TokenType.eqb a b); split; congruence.
Qed.

Lemma bind_returned {A B} (m : Parse A) (k : A -> Parse B) lexer r :
  bind m k lexer = Returned r ->
  exists a lexer', m lexer = Returned (a, lexer') /\ k a lexer' = Returned r.
Proof.
  unfold bind. destruct (m lexer) as [[a lexer'] | f]; [| discriminate].
  intros E. exists a, lexer'. split; [reflexivity | exact E].
Qed.

Lemma bind_step {A B} (m : Parse A) (k : A -> Parse B) lexer a lexer' :
  m lexer = Returned (a, lexer') -> bind m k lexer = k a lexer'.
Proof. unfold bind. intros ->. reflexivity. Qed.

Lemma bind_stopped {A B} (m : Parse A) (k : A -> Parse B) lexer f :
  m lexer = Stopped f -> bind m k lexer = Stopped f.
Proof. unfold bind. intros ->. reflexivity. Qed.

Lemma bind_ret_returned {A B} (m : Parse A) (g : A -> B) lexer b lexer' :
  bind m (fun a => ret (g a)) lexer = Returned (b, lexer') ->
  exists a, m lexer = Returned (a, lexer') /\ b = g a.
Proof.
  intros E. apply bind_returned in E as (a & l1 & Hm & Hr).
  unfold ret in Hr. inversion Hr; subst. exists a. split; [exact Hm | reflexivity].
Qed.

(** ** Scope lookup *)

Lemma Scope_chain_ind (P : Scope -> Prop) :
  (forall v t, P (mkScope v t None)) ->
  (forall v t parent, P parent -> P (mkScope v t (Some parent))) ->
  forall scope, P scope.
Proof.
  intros Hglobal Hnested. fix IH 1. intros [v t [parent |]].
  - apply Hnested. apply IH.
  - apply Hglobal.
Qed.

(** A lookup answers at the first scope of the chain that has the name, or
    goes on with the parent. *)
Ltac walk_chain scope :=
  let v := fresh "v" in
  let t := fresh "t" in
  let parent := fresh "parent" in
  let IH := fresh "IH" in
  let Hin := fresh "Hin" in
  let s := fresh "s" in
  let Hs := fresh "Hs" in
  let Hname := fresh "Hname" in
  induction scope as [v t | v t parent IH] using Scope_chain_ind; simpl;
  case_bool_decide as Hin;
  [ split; [intros _ | reflexivity];
    eexists; split; [apply list_elem_of_here | exact Hin]
  | split; [discriminate |];
    intros (s & Hs & Hname); apply list_elem_of_singleton in Hs; subst s;
    contradiction
  | split; [intros _ | reflexivity];
    eexists; split; [apply list_elem_of_here | exact Hin]
  | rewrite IH; split;
    [ intros (s & Hs & Hname); exists s;
      split; [apply list_elem_of_further, Hs | exact Hname]
    | intros (s & Hs & Hname); apply elem_of_cons in Hs as [-> | Hs];
      [contradiction | exists s; split; assumption] ] ].

Lemma typedef_name_in_chain_spec type_name scope :
  typedef_name_in_chain type_name scope = true <->
  exists s, s ∈ scope_chain scope /\ type_name ∈ typedef_names s.
Proof. walk_chain scope. Qed.

Lemma variable_in_chain_spec variable_name scope :
  variable_in_chain variable_name scope = true <->
  exists s, s ∈ scope_chain scope /\ variable_name ∈ variables s.
Proof. walk_chain scope. Qed.

(** C3, as the code has it: an identifier is taken for a type specifier
    exactly when some scope on the chain, from the innermost to the
    outermost, has its name in the typedef set.  The sets of variables play
    no part, so a variable of a nearer scope does not hide the typedef
    name. *)
Theorem typedef_lookup_ignores_variables (name : string) (scope : ScopePtr) :
  token_is_type_specifier (mkToken TokenType.Identifier name) scope = true
  <-> exists s, s ∈ scopes_from scope /\ name ∈ typedef_names s.
Proof.
  unfold token_is_type_specifier, typedef_name_in_scope, scopes_from. simpl.
  destruct scope as [current_scope |].
  - apply typedef_name_in_chain_spec.
  - split; [discriminate |]. intros (s & Hs & _).
    apply not_elem_of_nil in Hs. contradiction.
Qed.

(** C3, refuted as stated: [T] is a typedef name of the outer scope and a
    variable of the inner scope, and inside the inner scope the token [T]
    is still classified as a type specifier. *)
Lemma shadowed_typedef_still_a_type :
  ~ (forall (outer inner : Scope) (name : string),
        outer ∈ scopes_from (parent_scope inner) ->
        name ∈ typedef_names outer ->
        name ∈ variables inner ->
        token_is_type_specifier (mkToken TokenType.Identifier name)
          (Some inner) = false).
Proof.
  intros Hclaim.
  specialize (Hclaim Sample.outer Sample.inner "T").
  assert (Htrue : token_is_type_specifier
                    (mkToken TokenType.Identifier "T") (Some Sample.inner)
                  = true) by (vm_compute; reflexivity).
  rewrite Hclaim in Htrue; [discriminate | | |].
  - simpl. apply list_elem_of_here.
  - simpl. apply elem_of_singleton. reflexivity.
  - simpl. apply elem_of_singleton. reflexivity.
Qed.

(** ** Integer literals *)

(** The digit functions and the accumulation read no token. *)
Lemma assert_returned cond message lexer u lexer' :
  assert cond message lexer = Returned (u, lexer') ->
  cond = true /\ lexer' = lexer.
Proof.
  unfold assert. destruct cond; [| discriminate].
  unfold ret. intros E. inversion E. split; reflexivity.
Qed.

Lemma digit_keeps_lexer (char_to_int_function : ascii -> Parse Z) :
  char_to_int_function = hex_char_to_int
  \/ char_to_int_function = decimal_to_int
  \/ char_to_int_function = octal_to_int
  \/ char_to_int_function = binary_to_int ->
  forall c lexer d lexer',
    char_to_int_function c lexer = Returned (d, lexer') -> lexer' = lexer.
Proof.
  intros [-> | [-> | [-> | ->]]] c lexer d lexer' E.
  - unfold hex_char_to_int in E.
    repeat (destruct (char_between _ _ _);
            [unfold ret in E; congruence |]).
    discriminate.
  - apply bind_returned in E as (u & l1 & Hassert & E).
    apply assert_returned in Hassert as [_ ->]. unfold ret in E. congruence.
  - apply bind_returned in E as (u & l1 & Hassert & E).
    apply assert_returned in Hassert as [_ ->]. unfold ret in E. congruence.
  - apply bind_returned in E as (u & l1 & Hassert & E).
    apply assert_returned in Hassert as [_ ->]. unfold ret in E. congruence.
Qed.

Lemma accumulate_keeps_lexer wrap base char_to_int_function digits :
  (forall c lexer d lexer',
      char_to_int_function c lexer = Returned (d, lexer') ->
      lexer' = lexer) ->
  forall value lexer result lexer',
    accumulate wrap base char_to_int_function digits value lexer
    = Returned (result, lexer') ->
    lexer' = lexer.
Proof.
  intros Hdigit. induction digits as [| c digits IH]; simpl;
    intros value lexer result lexer' E.
  - unfold ret in E. congruence.
  - apply bind_returned in E as (d & l1 & Hd & E).
    apply Hdigit in Hd. subst l1. eapply IH, E.
Qed.

Lemma parse_number_returned lexer node lexer' :
  parse_number lexer = Returned (node, lexer') ->
  lexer' = advance lexer
  /\ node_type node = ASTNodeType.NumericConstant
  /\ data_type node
     = suffix_data_type (token_type (current_token (advance lexer))).
Proof.
  unfold parse_number. intros E.
  apply bind_returned in E as (number & l0 & Hcurrent & E).
  unfold get_current_token in Hcurrent. inversion Hcurrent; subst; clear Hcurrent.
  apply bind_returned in E as ([] & l1 & Hassert & E).
  apply assert_returned in Hassert as [_ ->].
  assert (Hpure : forall wrap base index f node' lexer'' type,
             (f = hex_char_to_int \/ f = decimal_to_int
              \/ f = octal_to_int \/ f = binary_to_int) ->
             bind (accumulate wrap base f
                     (drop index (list_ascii_of_string
                                    (token_string (current_token l0))))
                     0)
               (fun value =>
                  ret (set_data (new_ast_node ASTNodeType.NumericConstant)
                         type value)) lexer''
             = Returned (node', lexer') ->
             lexer' = lexer''
             /\ node_type node' = ASTNodeType.NumericConstant
             /\ data_type node' = type).
  { intros wrap base index f node' lexer'' type Hf Hrun.
    apply bind_ret_returned in Hrun as (z & Hz & ->).
    apply accumulate_keeps_lexer in Hz; [| apply digit_keeps_lexer, Hf].
    split; [exact Hz | split; reflexivity]. }
  repeat match type of E with
         | context [if ?c then _ else _] => destruct c
         end;
    apply bind_returned in E as (suffix & l2 & Hnext & E);
    unfold get_next_token in Hnext; inversion Hnext; subst; clear Hnext;
    destruct (token_type (current_token (advance l0)));
    (apply Hpure in E; [exact E | tauto]).
Qed.

Lemma suffix_data_type_unlisted kind :
  listed_integer_suffix kind = false -> suffix_data_type kind = DataType.Int.
Proof. destruct kind; simpl; intros E; try reflexivity; discriminate. Qed.

(** C2, at the point where the code departs from it: whatever token
    follows the number, the node [parse_number] returns is never an
    unsigned long, and after any token that is not one of the fourteen
    suffix kinds of the [switch] (so after [UL]) it is a signed [int]. *)
Theorem parse_number_has_no_unsigned_long
    (lexer lexer' : Lexer) (node : ASTNode) :
  parse_number lexer = Returned (node, lexer') ->
  data_type node <> DataType.UnsignedLong
  /\ (listed_integer_suffix (token_type (current_token (advance lexer)))
      = false -> data_type node = DataType.Int).
Proof.
  intros E. apply parse_number_returned in E as (_ & _ & ->). split.
  - destruct (token_type (current_token (advance lexer))); discriminate.
  - apply suffix_data_type_unlisted.
Qed.

(** The literal [0x10UL]: a signed [int] of value 16. *)
Lemma parse_number_has_no_unsigned_long_witness :
  parse_number Sample.literal_0x10UL
  = Returned (Sample.int_16, advance Sample.literal_0x10UL)
  /\ data_type Sample.int_16 <> DataType.UnsignedLong
  /\ (listed_integer_suffix
        (token_type (current_token (advance Sample.literal_0x10UL)))
      = false -> data_type Sample.int_16 = DataType.Int).
Proof.
  split; [reflexivity |].
  apply (parse_number_has_no_unsigned_long Sample.literal_0x10UL
           (advance Sample.literal_0x10UL) Sample.int_16).
  reflexivity.
Defined.

(** The other two literals of the claim are parsed as it says. *)
Example parse_number_binary :
  parse_number (lexer_at [Sample.number "0b101"; Sample.semicolon])
  = Returned (mkASTNode ASTNodeType.NumericConstant DataType.Int 5
                None None None None,
              lexer_at [Sample.semicolon]).
Proof. reflexivity. Qed.

Example parse_number_octal :
  parse_number (lexer_at [Sample.number "017"; Sample.semicolon])
  = Returned (mkASTNode ASTNodeType.NumericConstant DataType.Int 15
                None None None None,
              lexer_at [Sample.semicolon]).
Proof. reflexivity. Qed.

(** ** Primary and multiplicative expressions *)

(** C9, where the code departs from it: when the token
    [parse_primary_expression] inspects is an identifier, the empty
    [Identifier] case falls through to [parse_number], whose assertion on
    the kind of the token fails; no node is returned. *)
Theorem parse_primary_expression_identifier_asserts
    (scope : ScopePtr) (lexer : Lexer) :
  token_type (current_token (advance lexer)) = TokenType.Identifier ->
  parse_primary_expression scope lexer
  = Stopped (AssertionFailed
               "Parsing number but initial token type is not number").
Proof.
  intros Hid. unfold parse_primary_expression.
  rewrite (bind_step _ _ lexer (current_token (advance lexer))
             (advance lexer)) by reflexivity.
  rewrite Hid. unfold parse_number.
  rewrite (bind_step _ _ (advance lexer) (current_token (advance lexer))
             (advance lexer)) by reflexivity.
  rewrite Hid. reflexivity.
Qed.

Lemma parse_primary_expression_identifier_asserts_witness :
  token_type (current_token (advance Sample.before_x))
  = TokenType.Identifier
  /\ parse_primary_expression None Sample.before_x
     = Stopped (AssertionFailed
                  "Parsing number but initial token type is not number").
Proof.
  split; [reflexivity |].
  apply (parse_primary_expression_identifier_asserts None Sample.before_x).
  reflexivity.
Defined.

(** Whenever [parse_primary_expression] returns, the node is a numeric
    constant. *)
Lemma parse_primary_expression_returned scope lexer node lexer' :
  parse_primary_expression scope lexer = Returned (node, lexer') ->
  node_type node = ASTNodeType.NumericConstant.
Proof.
  unfold parse_primary_expression. intros E.
  apply bind_returned in E as (token & l1 & _ & E).
  destruct (token_type token); try discriminate;
    apply parse_number_returned in E as (_ & Hkind & _); exact Hkind.
Qed.

(** C4, where the code departs from it: [parse_multiplicative_expression]
    calls [parse_cast_expression] once, moves to the next token, and
    returns: the first operand as it is when that token is not [*] (also
    when it is [/] or [%]), and otherwise one multiplication node over the
    first operand and a second call of [parse_cast_expression].  There is
    no second operator and no loop. *)
Theorem parse_multiplicative_expression_one_operator
    (parse_cast_expression : Parse (option ASTNode))
    (lexer lexer' : Lexer) (tree : option ASTNode) :
  parse_multiplicative_expression parse_cast_expression lexer
  = Returned (tree, lexer') ->
  exists cast_expr after_cast,
    parse_cast_expression lexer = Returned (cast_expr, after_cast)
    /\ ((token_type (current_token (advance after_cast))
         <> TokenType.Asterisk
         /\ tree = cast_expr /\ lexer' = advance after_cast)
        \/ (token_type (current_token (advance after_cast))
            = TokenType.Asterisk
            /\ exists rhs,
                parse_cast_expression (advance after_cast)
                = Returned (rhs, lexer')
                /\ tree = Some (new_binary_expression_node
                                  ASTNodeType.Multiplication cast_expr rhs))).
Proof.
  unfold parse_multiplicative_expression. intros E.
  apply bind_returned in E as (cast_expr & after_cast & Hcast & E).
  exists cast_expr, after_cast. split; [exact Hcast |].
  apply bind_returned in E as (token & l1 & Hnext & E).
  unfold get_next_token in Hnext. inversion Hnext; subst; clear Hnext.
  destruct (token_type (current_token (advance after_cast))) eqn:Hkind;
    try (left; unfold ret in E; inversion E; subst;
         split; [discriminate | split; reflexivity]).
  right. split; [reflexivity |].
  apply bind_ret_returned in E as (rhs & Hrhs & ->).
  exists rhs. split; [exact Hrhs | reflexivity].
Qed.

(** [1 * 2 / 3] with the operand parser the sources define: the parser
    returns the constant [1] and stops on the token [2]. *)
Lemma parse_multiplicative_expression_one_operator_witness :
  parse_multiplicative_expression primary_operand
    Sample.before_1_times_2_over_3
  = Returned (Some Sample.int_1,
              lexer_at [Sample.number "2"; Sample.slash; Sample.number "3";
                        Sample.semicolon])
  /\ exists cast_expr after_cast,
      primary_operand Sample.before_1_times_2_over_3
      = Returned (cast_expr, after_cast)
      /\ ((token_type (current_token (advance after_cast))
           <> TokenType.Asterisk
           /\ Some Sample.int_1 = cast_expr
           /\ lexer_at [Sample.number "2"; Sample.slash; Sample.number "3";
                        Sample.semicolon] = advance after_cast)
          \/ (token_type (current_token (advance after_cast))
              = TokenType.Asterisk
              /\ exists rhs,
                  primary_operand (advance after_cast)
                  = Returned (rhs,
                              lexer_at [Sample.number "2"; Sample.slash;
                                        Sample.number "3"; Sample.semicolon])
                  /\ Some Sample.int_1
                     = Some (new_binary_expression_node
                               ASTNodeType.Multiplication cast_expr rhs))).
Proof.
  split; [reflexivity |].
  apply (parse_multiplicative_expression_one_operator primary_operand
           Sample.before_1_times_2_over_3).
  reflexivity.
Defined.

(** [1 * 2 / 3] with an operand parser that stays on the last token of the
    operand: the tree is [1 * 2], and [/ 3] is left unread. *)
Example parse_multiplicative_expression_stops_after_first_operator :
  parse_multiplicative_expression number_operand
    Sample.before_1_times_2_over_3
  = Returned (Some (new_binary_expression_node ASTNodeType.Multiplication
                      (Some Sample.int_1) (Some Sample.int_2)),
              lexer_at [Sample.number "2"; Sample.slash; Sample.number "3";
                        Sample.semicolon]).
Proof. reflexivity. Qed.

(** ** Jump statements and the statement switch *)

(** C6, where the code departs from it: in the case [GoTo] the token the
    code tests for being an identifier is the current token, which is still
    [goto]; so every [goto] statement, [goto L;] as well as [goto 5;], ends
    in the error ["Expected identifier after goto"], and the [goto] token is
    never consumed. *)
Theorem parse_jump_statement_goto_always_fails `{Collaborators}
    (scope : ScopePtr) (lexer : Lexer) :
  token_type (current_token lexer) = TokenType.GoTo ->
  parse_jump_statement scope lexer
  = Stopped (ErrorToken ("Expected identifier after goto" ++ newline)).
Proof.
  intros Hgoto. unfold parse_jump_statement.
  rewrite (bind_step _ _ lexer (current_token lexer) lexer) by reflexivity.
  rewrite Hgoto.
  rewrite (bind_step _ _ lexer (current_token lexer) lexer) by reflexivity.
  rewrite Hgoto. reflexivity.
Qed.

Lemma parse_jump_statement_goto_always_fails_witness :
  token_type (current_token Sample.goto_L) = TokenType.GoTo
  /\ @parse_jump_statement sample_collaborators None Sample.goto_L
     = Stopped (ErrorToken ("Expected identifier after goto" ++ newline)).
Proof.
  split; [reflexivity |].
  apply (@parse_jump_statement_goto_always_fails sample_collaborators None
           Sample.goto_L).
  reflexivity.
Defined.

(** [goto 5;] meets the same error, for the same reason. *)
Example parse_jump_statement_goto_5 :
  @parse_jump_statement sample_collaborators None Sample.goto_5
  = Stopped (ErrorToken ("Expected identifier after goto" ++ newline)).
Proof. reflexivity. Qed.

(** C10: the switch of [parse_statement] looks at the current token only;
    when it is an identifier the statement goes to the parser of labeled
    statements, whatever the parsers of the six forms are and whatever
    token follows. *)
Theorem statement_switch_identifier_is_labeled
    (labeled compound selection iteration jump expression
       : ScopePtr -> Parse (option ASTNode))
    (scope : ScopePtr) (lexer : Lexer) :
  token_type (current_token lexer) = TokenType.Identifier ->
  statement_switch labeled compound selection iteration jump expression
    scope lexer
  = labeled scope lexer.
Proof.
  intros Hid. unfold statement_switch.
  rewrite (bind_step _ _ lexer (current_token lexer) lexer) by reflexivity.
  rewrite Hid. reflexivity.
Qed.

(** [x = 1;] is handed to [parse_labeled_statement]. *)
Lemma statement_switch_identifier_is_labeled_witness :
  token_type (current_token Sample.x_equals_1) = TokenType.Identifier
  /\ @parse_statement sample_collaborators 1 None Sample.x_equals_1
     = parse_labeled_statement None Sample.x_equals_1.
Proof.
  split; [reflexivity |].
  apply (statement_switch_identifier_is_labeled parse_labeled_statement
           (compound_statement_body
              (@parse_declaration sample_collaborators 0)
              (@parse_statement sample_collaborators 0) 0)
           parse_selection_statement parse_iteration_statement
           (@parse_jump_statement sample_collaborators)
           parse_expression_statement None Sample.x_equals_1).
  reflexivity.
Defined.

(** The same for [parse_statement] itself, with any fuel to spend. *)
Lemma parse_statement_identifier `{Collaborators} fuel scope lexer :
  token_type (current_token lexer) = TokenType.Identifier ->
  parse_statement (S fuel) scope lexer
  = parse_labeled_statement scope lexer.
Proof.
  intros Hid. simpl. unfold statement_switch.
  rewrite (bind_step _ _ lexer (current_token lexer) lexer) by reflexivity.
  rewrite Hid. reflexivity.
Qed.

(** The labeled-statement parser reads no token: the lexer it leaves is
    the one it found. *)
Lemma parse_labeled_statement_reads_nothing scope lexer :
  parse_labeled_statement scope lexer
  = Returned (Some (new_ast_node ASTNodeType.Void), lexer).
Proof. reflexivity. Qed.

(** ** Declarators *)

(** C1, where the code departs from it: [parse_declarator] consumes the
    leading [*] and then calls [parse_pointer], which expects to stand on a
    [*]; a declarator with a single leading [*], such as [*a[3]], is
    rejected with ["Parsing pointer, expected *"], and no entity and no
    type come out of it. *)
Theorem parse_declarator_single_pointer_rejected `{Collaborators}
    (fuel : nat) (lexer : Lexer) :
  token_type (current_token lexer) = TokenType.Asterisk ->
  token_type (current_token (advance lexer)) <> TokenType.Asterisk ->
  parse_declarator (S (S fuel)) lexer
  = Stopped (ErrorToken "Parsing pointer, expected *").
Proof.
  intros Hstar Hnext. cbn [parse_declarator].
  rewrite (bind_step _ _ lexer (current_token lexer) lexer) by reflexivity.
  rewrite Hstar. simpl (TokenType.eqb _ _).
  apply bind_stopped.
  rewrite (bind_step _ _ lexer (current_token (advance lexer))
             (advance lexer)) by reflexivity.
  cbn [parse_pointer]. apply bind_stopped.
  unfold expect_and_get_next_token.
  apply TokenType_eqb_neq in Hnext. rewrite Hnext. reflexivity.
Qed.

Lemma parse_declarator_single_pointer_rejected_witness :
  token_type (current_token Sample.pointer_a_3) = TokenType.Asterisk
  /\ token_type (current_token (advance Sample.pointer_a_3))
     <> TokenType.Asterisk
  /\ @parse_declarator sample_collaborators 2 Sample.pointer_a_3
     = Stopped (ErrorToken "Parsing pointer, expected *").
Proof.
  split; [reflexivity |]. split; [discriminate |].
  apply (@parse_declarator_single_pointer_rejected sample_collaborators 0
           Sample.pointer_a_3); [reflexivity | discriminate].
Defined.

(** [( *a )[3]] is rejected in the same way, inside the parentheses. *)
Example parse_declarator_parenthesised_pointer :
  @parse_declarator sample_collaborators 3 Sample.paren_pointer_a_3
  = Stopped (ErrorToken "Parsing pointer, expected *").
Proof. reflexivity. Qed.

(** Without a pointer, the array suffix of [a[3]] reaches the default case
    of [parse_direct_declarator]. *)
Example parse_declarator_array_suffix :
  @parse_declarator sample_collaborators 1 Sample.a_3
  = Stopped (ErrorToken "FIXME: default case in parse_direct_declarator").
Proof. reflexivity. Qed.

(** ** Declaration specifiers *)

Lemma lexer_at_tokens_from lexer : lexer_at (tokens_from lexer) = lexer.
Proof. destruct lexer. reflexivity. Qed.

Lemma advance_lexer_at t ts : advance (mkLexer t ts) = lexer_at ts.
Proof. destruct ts; reflexivity. Qed.

Lemma declaration_specifiers_loop_run `{Collaborators} scope :
  token_is_declaration_specifier eof_token scope = false ->
  forall coming current declaration fuel,
    (length coming < fuel)%nat ->
    declaration_specifiers_loop fuel scope current declaration
      (mkLexer current coming)
    = match fold_declaration (specifier_run scope (current :: coming))
              declaration with
      | Returned folded =>
          Returned (folded,
                    lexer_at (after_specifier_run scope (current :: coming)))
      | Stopped f => Stopped f
      end.
Proof.
  intros Heof coming.
  induction coming as [| t ts IH]; intros current declaration fuel Hfuel.
  - destruct fuel as [| fuel]; [inversion Hfuel |].
    cbn [declaration_specifiers_loop specifier_run after_specifier_run].
    destruct (token_is_declaration_specifier current scope); [| reflexivity].
    cbn [fold_declaration]. unfold bind at 1, lift.
    destruct (update_declaration current declaration) as [folded | f];
      [| reflexivity].
    unfold bind, get_next_token. cbn [advance upcoming current_token].
    destruct fuel; cbn [declaration_specifiers_loop]; rewrite Heof;
      reflexivity.
  - destruct fuel as [| fuel]; [inversion Hfuel |].
    cbn [declaration_specifiers_loop].
    cbn [specifier_run after_specifier_run].
    destruct (token_is_declaration_specifier current scope); [| reflexivity].
    cbn [fold_declaration]. unfold bind at 1, lift.
    destruct (update_declaration current declaration) as [folded | f];
      [| reflexivity].
    unfold bind, get_next_token. cbn [advance upcoming current_token].
    apply IH. cbn [length] in Hfuel. lia.
Qed.

(** C7, as the code has it: the specifiers folded are the longest run of
    tokens, from the current one on, that belong to at least one of the
    five categories; whether a token belongs to one depends on the token
    and the scope only, so a typedef name counts as a type specifier also
    after a keyword type specifier; folding stops at the first token
    that belongs to no category, which stays the current token. *)
Theorem parse_declaration_specifiers_folds_run `{Collaborators}
    (fuel : nat) (scope : ScopePtr) (lexer : Lexer) :
  token_is_declaration_specifier eof_token scope = false ->
  (length (upcoming lexer) < fuel)%nat ->
  parse_declaration_specifiers fuel scope lexer
  = match fold_declaration (specifier_run scope (tokens_from lexer))
            empty_declaration with
    | Returned folded =>
        Returned (folded,
                  lexer_at (after_specifier_run scope (tokens_from lexer)))
    | Stopped f => Stopped f
    end.
Proof.
  intros Heof Hfuel. unfold parse_declaration_specifiers.
  rewrite (bind_step _ _ lexer (current_token lexer) lexer) by reflexivity.
  destruct lexer as [current coming].
  apply declaration_specifiers_loop_run; assumption.
Qed.

(** [int T x ;] where [T] is a typedef name: [int] and [T] are folded,
    the parser stops on [x]. *)
Lemma parse_declaration_specifiers_folds_run_witness :
  token_is_declaration_specifier eof_token (Some Sample.outer) = false
  /\ (length (upcoming Sample.int_T_x) < 4)%nat
  /\ @parse_declaration_specifiers sample_collaborators 4
       (Some Sample.outer) Sample.int_T_x
     = Returned ([Sample.kw_int; Sample.identifier "T"],
                 lexer_at [Sample.identifier "x"; Sample.semicolon]).
Proof.
  split; [vm_compute; reflexivity |]. split; [simpl; lia |].
  rewrite (@parse_declaration_specifiers_folds_run sample_collaborators 4
             (Some Sample.outer) Sample.int_T_x);
    [vm_compute; reflexivity | vm_compute; reflexivity | simpl; lia].
Defined.

(** The categories of a token, as the five predicates give them. *)
Lemma token_is_declaration_specifier_spec token scope :
  token_is_declaration_specifier token scope = true <->
  token_is_storage_class_specifier token = true
  \/ keyword_type_specifier (token_type token) = true
  \/ typedef_name_in_scope (token_string token) scope = true
  \/ token_is_type_qualifier token = true
  \/ token_is_function_specifier token = true
  \/ token_is_alignment_specifier token = true.
Proof.
  unfold token_is_declaration_specifier.
  rewrite !orb_true_iff.
  assert (Htype : token_is_type_specifier token scope = true <->
                  keyword_type_specifier (token_type token) = true
                  \/ typedef_name_in_scope (token_string token) scope = true).
  { unfold token_is_type_specifier.
    destruct (token_type token); simpl; intuition congruence. }
  rewrite Htype. tauto.
Qed.

(** C7, refuted as stated: the token [_Atomic] is in two categories, and
    in [int T x] the typedef name [T] is folded as a specifier although the
    keyword [int] has matched before it. *)
Lemma specifier_categories_overlap :
  ~ (forall token scope,
        token_is_type_qualifier token
        && token_is_type_specifier token scope = false)
  /\ @parse_declaration_specifiers sample_collaborators 4
       (Some Sample.outer) Sample.int_T_x
     = Returned ([Sample.kw_int; Sample.identifier "T"],
                 lexer_at [Sample.identifier "x"; Sample.semicolon]).
Proof.
  split.
  - intros Hclaim. specialize (Hclaim Sample.kw_atomic None). discriminate.
  - vm_compute. reflexivity.
Qed.

(** ** Compound statements *)

Lemma bind_ext {A B} (m : Parse A) (k k' : A -> Parse B) lexer :
  (forall a lexer', k a lexer' = k' a lexer') ->
  bind m k lexer = bind m k' lexer.
Proof.
  intros Hk. unfold bind. destruct (m lexer) as [[a lexer'] | f];
    [apply Hk | reflexivity].
Qed.

Lemma compound_statement_loop_scope declaration statement fuel scope :
  forall nodes previous_null lexer,
    compound_statement_loop declaration statement fuel scope nodes
      previous_null lexer
    = compound_statement_loop (fun _ => declaration scope)
        (fun _ => statement scope) fuel scope nodes previous_null lexer.
Proof.
  induction fuel as [| fuel IH]; intros nodes previous_null lexer.
  - reflexivity.
  - cbn [compound_statement_loop].
    apply bind_ext. intros current lexer1.
    destruct (negb _); [| reflexivity].
    apply bind_ext. intros current_ast_node lexer2.
    apply bind_ext. intros chained lexer3. apply IH.
Qed.

(** C8, as the code has it: [parse_compound_statement] opens no scope.
    Every declaration and statement of the block is parsed with the very
    scope the block was entered with: the two parsers of the items are
    never called with another one. *)
Theorem compound_statement_uses_enclosing_scope
    (declaration statement : ScopePtr -> Parse (option ASTNode))
    (fuel : nat) (scope : ScopePtr) (lexer : Lexer) :
  compound_statement_body declaration statement fuel scope lexer
  = compound_statement_body (fun _ => declaration scope)
      (fun _ => statement scope) fuel scope lexer.
Proof.
  unfold compound_statement_body.
  apply bind_ext. intros current lexer1.
  apply bind_ext. intros u lexer2.
  apply bind_ext. intros t lexer3.
  unfold bind at 1 4. rewrite compound_statement_loop_scope. reflexivity.
Qed.

(** A block nested in a block is parsed with the same scope again. *)
Lemma parse_statement_nested_block `{Collaborators} fuel scope lexer :
  token_type (current_token lexer) = TokenType.LBrace ->
  parse_statement (S fuel) scope lexer
  = parse_compound_statement fuel scope lexer.
Proof.
  intros Hbrace. cbn [parse_statement]. unfold statement_switch.
  rewrite (bind_step _ _ lexer (current_token lexer) lexer) by reflexivity.
  rewrite Hbrace. reflexivity.
Qed.

(** C8, refuted as stated: in the block [{ x }] entered with the global
    scope, the statement parser is called with the global scope itself,
    and with no scope whose parent is the global scope. *)
Lemma block_opens_no_child_scope :
  ~ (exists child : Scope,
        parent_scope child = Some global_scope
        /\ compound_statement_body
             (@parse_declaration sample_collaborators 2) scope_probe 2
             (Some global_scope) Sample.block_x
           = compound_statement_body
               (fun _ => @parse_declaration sample_collaborators 2
                           (Some child))
               (fun _ => scope_probe (Some child)) 2
               (Some global_scope) Sample.block_x).
Proof.
  intros ([v t parent] & Hparent & E). simpl in Hparent. subst parent.
  vm_compute in E. discriminate.
Qed.

(** ** Fuel

    More fuel never changes what a parsing function returns. *)

Lemma below_refl {A} (p : Parse A) : below p p.
Proof. intros lexer r E. exact E. Qed.

Lemma below_stop {A} f (q : Parse A) : below (stop f) q.
Proof. intros lexer r E. discriminate. Qed.

Lemma below_bind {A B} (m m' : Parse A) (k k' : A -> Parse B) :
  below m m' -> (forall a, below (k a) (k' a)) ->
  below (bind m k) (bind m' k').
Proof.
  intros Hm Hk lexer r E.
  apply bind_returned in E as (a & lexer' & Ha & E).
  rewrite (bind_step _ _ _ _ _ (Hm _ _ Ha)). apply Hk, E.
Qed.

Create HintDb below.
#[local] Hint Resolve below_refl below_stop : below.
#[local] Hint Extern 1 (_ <= _)%nat => lia : below.

(** Walks down two runs of the same code that differ in their fuel. *)
Ltac below_walk :=
  repeat first
    [ apply below_refl
    | apply below_stop
    | solve [auto with below]
    | match goal with
      | |- below (bind _ _) (bind _ _) => apply below_bind; [| intros ?]
      | |- below (if ?c then _ else _) _ => destruct c
      | |- below (match ?x with _ => _ end) _ => destruct x
      | |- below (let _ := _ in _) _ => cbv zeta
      end ].

Lemma declaration_specifiers_loop_monotone `{Collaborators} scope :
  forall fuel fuel' current declaration,
    (fuel <= fuel')%nat ->
    below (declaration_specifiers_loop fuel scope current declaration)
      (declaration_specifiers_loop fuel' scope current declaration).
Proof.
  induction fuel as [| fuel IH]; intros [| fuel'] current declaration Hle;
    try lia; cbn [declaration_specifiers_loop]; below_walk.
Qed.
#[local] Hint Resolve declaration_specifiers_loop_monotone : below.

Lemma parse_declaration_specifiers_monotone `{Collaborators} scope
    fuel fuel' :
  (fuel <= fuel')%nat ->
  below (parse_declaration_specifiers fuel scope)
    (parse_declaration_specifiers fuel' scope).
Proof. intros Hle. unfold parse_declaration_specifiers. below_walk. Qed.
#[local] Hint Resolve parse_declaration_specifiers_monotone : below.

Lemma type_qualifier_list_loop_monotone `{Collaborators} :
  forall fuel fuel' current declaration,
    (fuel <= fuel')%nat ->
    below (type_qualifier_list_loop fuel current declaration)
      (type_qualifier_list_loop fuel' current declaration).
Proof.
  induction fuel as [| fuel IH]; intros [| fuel'] current declaration Hle;
    try lia; cbn [type_qualifier_list_loop]; below_walk.
Qed.
#[local] Hint Resolve type_qualifier_list_loop_monotone : below.

Lemma parse_type_qualifier_list_monotone `{Collaborators} fuel fuel' :
  (fuel <= fuel')%nat ->
  below (parse_type_qualifier_list fuel) (parse_type_qualifier_list fuel').
Proof. intros Hle. unfold parse_type_qualifier_list. below_walk. Qed.
#[local] Hint Resolve parse_type_qualifier_list_monotone : below.

Lemma parse_pointer_monotone `{Collaborators} :
  forall fuel fuel',
    (fuel <= fuel')%nat -> below (parse_pointer fuel) (parse_pointer fuel').
Proof.
  induction fuel as [| fuel IH]; intros [| fuel'] Hle;
    try lia; cbn [parse_pointer]; below_walk.
Qed.
#[local] Hint Resolve parse_pointer_monotone : below.

Lemma direct_declarator_body_monotone (declarator declarator' : Parse unit)
    object :
  below declarator declarator' ->
  below (direct_declarator_body declarator object)
    (direct_declarator_body declarator' object).
Proof. intros Hle. unfold direct_declarator_body. below_walk. Qed.
#[local] Hint Resolve direct_declarator_body_monotone : below.

Lemma parse_declarator_monotone `{Collaborators} :
  forall fuel fuel',
    (fuel <= fuel')%nat ->
    below (parse_declarator fuel) (parse_declarator fuel').
Proof.
  induction fuel as [| fuel IH]; intros [| fuel'] Hle;
    try lia; cbn [parse_declarator]; below_walk.
Qed.
#[local] Hint Resolve parse_declarator_monotone : below.

Lemma parse_init_declarator_monotone `{Collaborators} fuel fuel' :
  (fuel <= fuel')%nat ->
  below (parse_init_declarator fuel) (parse_init_declarator fuel').
Proof. intros Hle. unfold parse_init_declarator. below_walk. Qed.
#[local] Hint Resolve parse_init_declarator_monotone : below.

Lemma declaration_loop_monotone `{Collaborators} :
  forall fuel fuel' nodes,
    (fuel <= fuel')%nat ->
    below (declaration_loop fuel nodes) (declaration_loop fuel' nodes).
Proof.
  induction fuel as [| fuel IH]; intros [| fuel'] nodes Hle;
    try lia; cbn [declaration_loop]; below_walk.
Qed.
#[local] Hint Resolve declaration_loop_monotone : below.

Lemma parse_declaration_monotone `{Collaborators} scope fuel fuel' :
  (fuel <= fuel')%nat ->
  below (parse_declaration fuel scope) (parse_declaration fuel' scope).
Proof. intros Hle. unfold parse_declaration. below_walk. Qed.
#[local] Hint Resolve parse_declaration_monotone : below.

Lemma compound_statement_loop_monotone
    (declaration declaration' statement statement'
       : ScopePtr -> Parse (option ASTNode)) scope :
  below (declaration scope) (declaration' scope) ->
  below (statement scope) (statement' scope) ->
  forall fuel fuel' nodes previous_null,
    (fuel <= fuel')%nat ->
    below (compound_statement_loop declaration statement fuel scope nodes
             previous_null)
      (compound_statement_loop declaration' statement' fuel' scope nodes
         previous_null).
Proof.
  intros Hdeclaration Hstatement.
  induction fuel as [| fuel IH]; intros [| fuel'] nodes previous_null Hle;
    try lia; cbn [compound_statement_loop]; below_walk.
Qed.

Lemma compound_statement_body_monotone
    (declaration declaration' statement statement'
       : ScopePtr -> Parse (option ASTNode)) scope fuel fuel' :
  below (declaration scope) (declaration' scope) ->
  below (statement scope) (statement' scope) ->
  (fuel <= fuel')%nat ->
  below (compound_statement_body declaration statement fuel scope)
    (compound_statement_body declaration' statement' fuel' scope).
Proof.
  intros Hdeclaration Hstatement Hle. unfold compound_statement_body.
  below_walk. apply compound_statement_loop_monotone; assumption.
Qed.
#[local] Hint Resolve compound_statement_loop_monotone
  compound_statement_body_monotone : below.

Lemma parse_statement_monotone `{Collaborators} :
  forall fuel fuel' scope,
    (fuel <= fuel')%nat ->
    below (parse_statement fuel scope) (parse_statement fuel' scope).
Proof.
  induction fuel as [| fuel IH]; intros [| fuel'] scope Hle;
    try lia; cbn [parse_statement]; [apply below_stop | apply below_stop |].
  unfold statement_switch.
  apply below_bind; [apply below_refl | intros current].
  destruct (token_type current); try apply below_refl.
  apply compound_statement_body_monotone;
    [apply parse_declaration_monotone | apply IH |]; lia.
Qed.

Lemma parse_compound_statement_monotone `{Collaborators}
    fuel fuel' scope :
  (fuel <= fuel')%nat ->
  below (parse_compound_statement fuel scope)
    (parse_compound_statement fuel' scope).
Proof.
  intros Hle. unfold parse_compound_statement.
  apply compound_statement_body_monotone;
    [apply parse_declaration_monotone | apply parse_statement_monotone |];
    lia.
Qed.
#[local] Hint Resolve parse_compound_statement_monotone : below.

Lemma parse_external_declaration_monotone `{Collaborators}
    fuel fuel' scope :
  (fuel <= fuel')%nat ->
  below (parse_external_declaration fuel scope)
    (parse_external_declaration fuel' scope).
Proof. intros Hle. unfold parse_external_declaration. below_walk. Qed.
#[local] Hint Resolve parse_external_declaration_monotone : below.

Lemma translation_unit_loop_monotone `{Collaborators} scope :
  forall fuel fuel' declarations,
    (fuel <= fuel')%nat ->
    below (translation_unit_loop fuel scope declarations)
      (translation_unit_loop fuel' scope declarations).
Proof.
  induction fuel as [| fuel IH]; intros [| fuel'] declarations Hle;
    try lia; cbn [translation_unit_loop]; below_walk.
Qed.

(** ** The translation unit *)

Lemma deref_returned {A} (ptr : option A) lexer a lexer' :
  deref ptr lexer = Returned (a, lexer') -> ptr = Some a /\ lexer' = lexer.
Proof.
  destruct ptr as [a0 |]; simpl; [| discriminate].
  unfold ret. intros E. inversion E. split; reflexivity.
Qed.

Lemma parse_external_declaration_sound `{Collaborators}
    fuel scope lexer declaration lexer' :
  parse_external_declaration fuel scope lexer
  = Returned (declaration, lexer') ->
  external_declaration_parsed scope lexer declaration lexer'.
Proof.
  unfold parse_external_declaration. intros E.
  apply bind_returned in E as (current & l0 & Hcurrent & E).
  unfold get_current_token in Hcurrent. inversion Hcurrent; subst; clear Hcurrent.
  apply bind_returned in E as ([] & l1 & Hstart & E).
  destruct (token_is_declaration_specifier (current_token l0) scope)
    eqn:Hspecifier; simpl in Hstart; [| discriminate].
  unfold ret in Hstart. inversion Hstart; subst l1; clear Hstart.
  apply bind_returned in E as (specifiers & l2 & Hspecifiers & E).
  apply bind_returned in E as (declared & l3 & Hdeclarator & E).
  apply bind_returned in E as (entity & l4 & Hentity & E).
  apply deref_returned in Hentity as [-> ->].
  apply bind_returned in E as (type & l5 & Htype & E).
  apply deref_returned in Htype as [Htype ->].
  cbv zeta in E.
  destruct (fundamental_type type) eqn:Hkind;
    try (apply bind_ret_returned in E as (node & Hrest & ->);
         eapply parsed_declaration; eauto;
         intros [Hfunction _]; congruence).
  apply bind_returned in E as (current & l6 & Hcurrent & E).
  unfold get_current_token in Hcurrent. inversion Hcurrent; subst; clear Hcurrent.
  destruct (TokenType.eqb (token_type (current_token l6)) TokenType.LBrace)
    eqn:Hbrace.
  - apply TokenType_eqb_eq in Hbrace.
    apply bind_ret_returned in E as (body & Hbody & ->).
    eapply parsed_function_definition; eauto.
  - apply TokenType_eqb_neq in Hbrace.
    apply bind_ret_returned in E as (node & Hrest & ->).
    eapply parsed_declaration; eauto.
    intros [_ Hopen]. contradiction.
Qed.

Lemma parse_external_declaration_complete `{Collaborators}
    scope lexer declaration lexer' :
  external_declaration_parsed scope lexer declaration lexer' ->
  exists fuel,
    parse_external_declaration fuel scope lexer
    = Returned (declaration, lexer').
Proof.
  intros [l fuel specifiers l2 entity type l3 fuel' body l4
            Hspecifier Hspecifiers Hdeclarator Htype Hkind Hbrace Hbody
         | l fuel specifiers l2 entity type l3 node l4
            Hspecifier Hspecifiers Hdeclarator Htype Hother Hrest].
  - exists (Nat.max fuel fuel'). unfold parse_external_declaration.
    rewrite (bind_step _ _ l (current_token l) l) by reflexivity.
    rewrite Hspecifier. cbn [negb].
    rewrite (bind_step _ _ l tt l) by reflexivity.
    rewrite (bind_step _ _ l specifiers l2)
      by (eapply parse_declaration_specifiers_monotone;
          [apply Nat.le_max_l | exact Hspecifiers]).
    rewrite (bind_step _ _ _ _ _ Hdeclarator).
    rewrite (bind_step _ _ l3 entity l3) by reflexivity.
    rewrite Htype. rewrite (bind_step _ _ l3 type l3) by reflexivity.
    cbv zeta. rewrite Hkind.
    rewrite (bind_step _ _ l3 (current_token l3) l3) by reflexivity.
    rewrite Hbrace. simpl (TokenType.eqb _ _). cbv iota.
    rewrite (bind_step _ _ l3 body l4)
      by (eapply parse_compound_statement_monotone;
          [apply Nat.le_max_r | exact Hbody]).
    reflexivity.
  - exists fuel. unfold parse_external_declaration.
    rewrite (bind_step _ _ l (current_token l) l) by reflexivity.
    rewrite Hspecifier. cbn [negb].
    rewrite (bind_step _ _ l tt l) by reflexivity.
    rewrite (bind_step _ _ _ _ _ Hspecifiers).
    rewrite (bind_step _ _ _ _ _ Hdeclarator).
    rewrite (bind_step _ _ l3 entity l3) by reflexivity.
    rewrite Htype. rewrite (bind_step _ _ l3 type l3) by reflexivity.
    cbv zeta.
    destruct (fundamental_type type) eqn:Hkind;
      try (rewrite (bind_step _ _ _ _ _ Hrest); reflexivity).
    rewrite (bind_step _ _ l3 (current_token l3) l3) by reflexivity.
    destruct (TokenType.eqb (token_type (current_token l3))
                TokenType.LBrace) eqn:Hbrace.
    + apply TokenType_eqb_eq in Hbrace. exfalso. apply Hother.
      split; [reflexivity | exact Hbrace].
    + rewrite (bind_step _ _ _ _ _ Hrest). reflexivity.
Qed.

Lemma translation_unit_loop_sound `{Collaborators} scope :
  forall fuel declarations lexer result lexer',
    translation_unit_loop fuel scope declarations lexer
    = Returned (result, lexer') ->
    exists parsed,
      result = (declarations ++ parsed)%list
      /\ translation_unit_parsed scope lexer parsed.
Proof.
  induction fuel as [| fuel IH]; intros declarations lexer result lexer' E;
    cbn [translation_unit_loop] in E;
    apply bind_returned in E as (current & l0 & Hcurrent & E);
    unfold get_current_token in Hcurrent; inversion Hcurrent; subst;
    clear Hcurrent;
    destruct (TokenType.eqb (token_type (current_token l0)) TokenType.Eof)
      eqn:Heof; cbn [negb] in E; try discriminate.
  - unfold ret in E. inversion E; subst. exists [].
    split; [symmetry; apply app_nil_r |].
    apply parsed_end_of_input. apply TokenType_eqb_eq, Heof.
  - unfold ret in E. inversion E; subst. exists [].
    split; [symmetry; apply app_nil_r |].
    apply parsed_end_of_input. apply TokenType_eqb_eq, Heof.
  - apply bind_returned in E as (first & l1 & Hfirst & E).
    apply IH in E as (others & -> & Hothers).
    exists (first :: others). split.
    + rewrite <- app_assoc. reflexivity.
    + eapply parsed_external_declaration.
      * apply TokenType_eqb_neq, Heof.
      * eapply parse_external_declaration_sound, Hfirst.
      * exact Hothers.
Qed.

Lemma translation_unit_loop_reaches_end `{Collaborators} scope :
  forall fuel declarations lexer result lexer',
    translation_unit_loop fuel scope declarations lexer
    = Returned (result, lexer') ->
    token_type (current_token lexer') = TokenType.Eof.
Proof.
  induction fuel as [| fuel IH]; intros declarations lexer result lexer' E;
    cbn [translation_unit_loop] in E;
    apply bind_returned in E as (current & l0 & Hcurrent & E);
    unfold get_current_token in Hcurrent; inversion Hcurrent; subst;
    clear Hcurrent;
    destruct (TokenType.eqb (token_type (current_token l0)) TokenType.Eof)
      eqn:Heof; cbn [negb] in E; try discriminate.
  - unfold ret in E. inversion E; subst. apply TokenType_eqb_eq, Heof.
  - unfold ret in E. inversion E; subst. apply TokenType_eqb_eq, Heof.
  - apply bind_returned in E as (first & l1 & Hfirst & E).
    eapply IH, E.
Qed.

Lemma translation_unit_loop_complete `{Collaborators} scope lexer parsed :
  translation_unit_parsed scope lexer parsed ->
  forall declarations,
  exists fuel lexer',
    translation_unit_loop fuel scope declarations lexer
    = Returned ((declarations ++ parsed)%list, lexer').
Proof.
  induction 1 as [lexer Heof | lexer first lexer1 others Hmore Hfirst _ IH];
    intros declarations.
  - exists 0%nat, lexer. cbn [translation_unit_loop].
    rewrite (bind_step _ _ lexer (current_token lexer) lexer) by reflexivity.
    rewrite Heof. simpl. rewrite app_nil_r. reflexivity.
  - apply parse_external_declaration_complete in Hfirst as [fuel1 Hfirst].
    destruct (IH (declarations ++ [first])%list) as (fuel2 & lexer' & Hrest).
    exists (S (Nat.max fuel1 fuel2)), lexer'. cbn [translation_unit_loop].
    rewrite (bind_step _ _ lexer (current_token lexer) lexer) by reflexivity.
    apply TokenType_eqb_neq in Hmore. rewrite Hmore. cbn [negb].
    rewrite (bind_step _ _ lexer first lexer1)
      by (eapply parse_external_declaration_monotone;
          [apply Nat.le_max_l | exact Hfirst]).
    rewrite <- app_assoc in Hrest.
    eapply translation_unit_loop_monotone; [apply Nat.le_max_r | exact Hrest].
Qed.

(** C5: the driver returns a list exactly when the input, from its first
    token to the end of the input, is a sequence of external declarations,
    and the list is that sequence in source order.  Each one is a
    [FunctionDefinition], with the compound statement as the body of the
    entity, when the declared entity is a function and the token after the
    declarator is [{]; otherwise the rest of the declaration is parsed
    and it is a [Declaration]. *)
Theorem parse_translation_unit_refines `{Collaborators}
    (file : list Token) (declarations : list ExternalDeclaration) :
  (exists fuel, parse_translation_unit fuel file = Returned declarations)
  <-> translation_unit_parsed (Some global_scope) (lexer_at file)
        declarations.
Proof.
  assert (Hfirst : forall A (k : Token -> Parse A),
             bind get_next_token k (new_lexer file)
             = k (current_token (lexer_at file)) (lexer_at file)).
  { intros A k. unfold bind, get_next_token, new_lexer, advance.
    destruct file; reflexivity. }
  unfold parse_translation_unit. split.
  - intros [fuel E]. rewrite Hfirst in E.
    destruct (translation_unit_loop fuel (Some global_scope) []
                (lexer_at file)) as [[result lexer'] | f] eqn:Hloop;
      [| discriminate].
    inversion E; subst result; clear E.
    apply translation_unit_loop_sound in Hloop as (parsed & -> & Hparsed).
    exact Hparsed.
  - intros Hparsed.
    destruct (translation_unit_loop_complete _ _ _ Hparsed [])
      as (fuel & lexer' & Hloop).
    exists fuel. rewrite Hfirst, Hloop. reflexivity.
Qed.

(** [int f() { return x; } int g();]: a function definition, then a
    declaration. *)
Example parse_translation_unit_sample :
  @parse_translation_unit sample_collaborators 4
    Sample.definition_then_declaration
  = Returned
      [mkExternalDeclaration
         (Some (Sample.declaration_of
                  (Sample.function_object "f" (Some Sample.return_x))))
         ExternalDeclarationType.FunctionDefinition;
       mkExternalDeclaration
         (Some (Sample.declaration_of (Sample.function_object "g" None)))
         ExternalDeclarationType.Declaration].
Proof. vm_compute. reflexivity. Qed.

(** * Further properties *)

(** ** The value of an integer literal *)

Lemma wrap_unsigned_step w a b d :
  wrap_unsigned w (wrap_unsigned w a * b + d) = wrap_unsigned w (a * b + d).
Proof.
  unfold wrap_unsigned.
  rewrite <- (Zplus_mod_idemp_l (a mod 2 ^ w * b)).
  rewrite Zmult_mod_idemp_l. rewrite Zplus_mod_idemp_l. reflexivity.
Qed.

Lemma wrap_signed_mod w x y :
  x mod 2 ^ w = y mod 2 ^ w -> wrap_signed w x = wrap_signed w y.
Proof.
  intros E. unfold wrap_signed.
  rewrite <- (Zplus_mod_idemp_l x), <- (Zplus_mod_idemp_l y), E. reflexivity.
Qed.

Lemma wrap_signed_congruent w x : (wrap_signed w x) mod 2 ^ w = x mod 2 ^ w.
Proof.
  unfold wrap_signed. rewrite Zminus_mod_idemp_l.
  replace (x + 2 ^ (w - 1) - 2 ^ (w - 1)) with x by lia. reflexivity.
Qed.

Lemma wrap_signed_step w a b d :
  wrap_signed w (wrap_signed w a * b + d) = wrap_signed w (a * b + d).
Proof.
  apply wrap_signed_mod.
  rewrite <- (Zplus_mod_idemp_l (wrap_signed w a * b)).
  rewrite <- Zmult_mod_idemp_l, wrap_signed_congruent.
  rewrite Zmult_mod_idemp_l, Zplus_mod_idemp_l. reflexivity.
Qed.

Lemma digit_is_digit_value (char_to_int_function : ascii -> Parse Z) :
  char_to_int_function = hex_char_to_int
  \/ char_to_int_function = decimal_to_int
  \/ char_to_int_function = octal_to_int
  \/ char_to_int_function = binary_to_int ->
  forall c lexer d lexer',
    char_to_int_function c lexer = Returned (d, lexer') ->
    d = digit_value c.
Proof.
  intros [-> | [-> | [-> | ->]]] c lexer d lexer' E.
  - unfold hex_char_to_int in E. unfold digit_value.
    repeat (destruct (char_between _ _ _);
            [unfold ret in E; congruence |]).
    discriminate.
  - apply bind_returned in E as (u & l1 & Hassert & E).
    apply assert_returned in Hassert as [Hdigit ->].
    unfold ret in E. inversion E. unfold digit_value. rewrite Hdigit.
    reflexivity.
  - apply bind_returned in E as (u & l1 & Hassert & E).
    apply assert_returned in Hassert as [Hdigit ->].
    unfold ret in E. inversion E. unfold digit_value.
    replace (char_between "0" c "9") with true; [reflexivity |].
    symmetry. unfold char_between in *.
    apply andb_true_iff in Hdigit as [Hlow Hhigh].
    apply andb_true_iff. split; [exact Hlow |].
    apply Z.leb_le in Hhigh. apply Z.leb_le.
    change (char_code "7") with 55 in Hhigh.
    change (char_code "9") with 57. lia.
  - apply bind_returned in E as (u & l1 & Hassert & E).
    apply assert_returned in Hassert as [Hdigit ->].
    unfold ret in E. inversion E. unfold digit_value.
    replace (char_between "0" c "9") with true; [reflexivity |].
    symmetry. unfold char_between in *.
    apply andb_true_iff in Hdigit as [Hlow Hhigh].
    apply andb_true_iff. split; [exact Hlow |].
    apply Z.leb_le in Hhigh. apply Z.leb_le.
    change (char_code "1") with 49 in Hhigh.
    change (char_code "9") with 57. lia.
Qed.

Lemma accumulate_value (wrap : Z -> Z) base
    (char_to_int_function : ascii -> Parse Z) :
  (forall a b d, wrap (wrap a * b + d) = wrap (a * b + d)) ->
  (forall c lexer d lexer',
      char_to_int_function c lexer = Returned (d, lexer') ->
      d = digit_value c) ->
  forall digits value lexer result lexer',
    accumulate wrap base char_to_int_function digits (wrap value) lexer
    = Returned (result, lexer') ->
    result = wrap (positional_value base digits value).
Proof.
  intros Hwrap Hdigit. induction digits as [| c digits IH]; simpl;
    intros value lexer result lexer' E.
  - unfold ret in E. congruence.
  - apply bind_returned in E as (d & l1 & Hd & E).
    apply Hdigit in Hd. subst d. rewrite Hwrap in E.
    apply IH in E. exact E.
Qed.

(** X1: when [parse_number] returns, the value of the node is the number
    the digits after the prefix denote in the base of the prefix, reduced
    to the accumulator type the suffix selects. *)
Theorem parse_number_value (lexer lexer' : Lexer) (node : ASTNode) :
  parse_number lexer = Returned (node, lexer') ->
  data_as node
  = suffix_wrap (token_type (current_token (advance lexer)))
      (positional_value
         (literal_base
            (list_ascii_of_string (token_string (current_token lexer))))
         (literal_digits
            (list_ascii_of_string (token_string (current_token lexer))))
         0).
Proof.
  unfold parse_number, literal_base, literal_digits. intros E.
  apply bind_returned in E as (number & l0 & Hcurrent & E).
  unfold get_current_token in Hcurrent. inversion Hcurrent; subst; clear Hcurrent.
  apply bind_returned in E as ([] & l1 & Hassert & E).
  apply assert_returned in Hassert as [_ ->].
  assert (Hvalue : forall wrap base f digits node' lexer'' type,
             (forall a b d, wrap (wrap a * b + d) = wrap (a * b + d)) ->
             wrap 0 = 0 ->
             (f = hex_char_to_int \/ f = decimal_to_int
              \/ f = octal_to_int \/ f = binary_to_int) ->
             bind (accumulate wrap base f digits 0)
               (fun value =>
                  ret (set_data (new_ast_node ASTNodeType.NumericConstant)
                         type value)) lexer''
             = Returned (node', lexer') ->
             data_as node' = wrap (positional_value base digits 0)).
  { intros wrap base f digits node' lexer'' type Hwrap Hzero Hf Hrun.
    apply bind_ret_returned in Hrun as (z & Hz & ->).
    rewrite <- Hzero in Hz at 1.
    eapply accumulate_value in Hz;
      [exact Hz | exact Hwrap | apply digit_is_digit_value, Hf]. }
  repeat match type of E with
         | context [if ?c then _ else _] => destruct c
         end;
    apply bind_returned in E as (suffix & l2 & Hnext & E);
    unfold get_next_token in Hnext; inversion Hnext; subst; clear Hnext;
    destruct (token_type (current_token (advance l0)));
    (apply Hvalue in E;
     [ exact E
     | first [apply wrap_signed_step | apply wrap_unsigned_step]
     | reflexivity
     | tauto ]).
Qed.

(** [4294967297u] is the unsigned constant 1. *)
Lemma parse_number_value_witness :
  parse_number More.literal_wraps
  = Returned (More.unsigned_1, advance More.literal_wraps)
  /\ data_as More.unsigned_1
     = suffix_wrap
         (token_type (current_token (advance More.literal_wraps)))
         (positional_value
            (literal_base
               (list_ascii_of_string
                  (token_string (current_token More.literal_wraps))))
            (literal_digits
               (list_ascii_of_string
                  (token_string (current_token More.literal_wraps))))
            0).
Proof.
  split; [vm_compute; reflexivity |].
  apply (parse_number_value More.literal_wraps
           (advance More.literal_wraps) More.unsigned_1).
  vm_compute. reflexivity.
Defined.

Lemma char_between_bounds lo c hi :
  char_between lo c hi = true ->
  char_code lo <= char_code c <= char_code hi.
Proof.
  unfold char_between. intros E. apply andb_true_iff in E as [Hlow Hhigh].
  apply Z.leb_le in Hlow. apply Z.leb_le in Hhigh. lia.
Qed.

Lemma digit_value_range c : 0 <= digit_value c < 16.
Proof.
  unfold digit_value.
  destruct (char_between "0" c "9") eqn:Hdecimal;
    [apply char_between_bounds in Hdecimal;
     change (char_code "0") with 48 in *;
     change (char_code "9") with 57 in *; lia |].
  destruct (char_between "a" c "f") eqn:Hlower;
    [apply char_between_bounds in Hlower;
     change (char_code "a") with 97 in *;
     change (char_code "f") with 102 in *; lia |].
  destruct (char_between "A" c "F") eqn:Hupper;
    [apply char_between_bounds in Hupper;
     change (char_code "A") with 65 in *;
     change (char_code "F") with 70 in *; lia |].
  lia.
Qed.

Lemma positional_value_nonnegative base digits :
  0 <= base -> forall value, 0 <= value ->
  0 <= positional_value base digits value.
Proof.
  intros Hbase. unfold positional_value.
  induction digits as [| c digits IH]; simpl; intros value Hvalue.
  - exact Hvalue.
  - apply IH. pose proof (digit_value_range c). nia.
Qed.

Lemma literal_base_nonnegative text : 0 <= literal_base text.
Proof.
  unfold literal_base. repeat destruct (Ascii.eqb _ _); lia.
Qed.

(** X2: a literal without one of the suffixes of the [switch], whose
    digits denote a number below [2^31], is an [int] node of exactly that
    value: no wrap-around takes place. *)
Theorem parse_number_exact_int (lexer lexer' : Lexer) (node : ASTNode) :
  parse_number lexer = Returned (node, lexer') ->
  listed_integer_suffix (token_type (current_token (advance lexer)))
  = false ->
  positional_value
    (literal_base
       (list_ascii_of_string (token_string (current_token lexer))))
    (literal_digits
       (list_ascii_of_string (token_string (current_token lexer))))
    0 < 2 ^ 31 ->
  data_type node = DataType.Int
  /\ data_as node
     = positional_value
         (literal_base
            (list_ascii_of_string (token_string (current_token lexer))))
         (literal_digits
            (list_ascii_of_string (token_string (current_token lexer))))
         0.
Proof.
  intros E Hsuffix Hfits. split.
  - apply parse_number_returned in E as (_ & _ & ->).
    apply suffix_data_type_unlisted, Hsuffix.
  - pose proof (positional_value_nonnegative
                  (literal_base
                     (list_ascii_of_string
                        (token_string (current_token lexer))))
                  (literal_digits
                     (list_ascii_of_string
                        (token_string (current_token lexer))))
                  (literal_base_nonnegative _) 0 (Z.le_refl 0)) as Hpositive.
    assert (Hvalue := E).
    unfold parse_number, literal_base, literal_digits in *.
    apply bind_returned in Hvalue as (number & l0 & Hcurrent & Hvalue).
    unfold get_current_token in Hcurrent.
    inversion Hcurrent; subst; clear Hcurrent.
    apply bind_returned in Hvalue as ([] & l1 & Hassert & Hvalue).
    apply assert_returned in Hassert as [_ ->].
    assert (Hint : forall base f digits node' lexer'',
               (f = hex_char_to_int \/ f = decimal_to_int
                \/ f = octal_to_int \/ f = binary_to_int) ->
               0 <= positional_value base digits 0 < 2 ^ 31 ->
               bind (accumulate wrap_int base f digits 0)
                 (fun value =>
                    ret (set_data
                           (new_ast_node ASTNodeType.NumericConstant)
                           DataType.Int value)) lexer''
               = Returned (node', lexer') ->
               data_as node' = positional_value base digits 0).
    { intros base f digits node' lexer'' Hf Hrange Hrun.
      apply bind_ret_returned in Hrun as (z & Hz & ->).
      change 0 with (wrap_int 0) in Hz at 1.
      eapply accumulate_value in Hz;
        [| apply wrap_signed_step | apply digit_is_digit_value, Hf].
      simpl. rewrite Hz. unfold wrap_int, wrap_signed.
      change (2 ^ (32 - 1)) with 2147483648.
      change (2 ^ 32) with 4294967296.
      change (2 ^ 31) with 2147483648 in Hrange.
      rewrite Z.mod_small by lia. lia. }
    repeat match type of Hvalue with
           | context [if ?c then _ else _] => destruct c
           end;
      apply bind_returned in Hvalue as (suffix & l2 & Hnext & Hvalue);
      unfold get_next_token in Hnext; inversion Hnext; subst; clear Hnext;
      destruct (token_type (current_token (advance l0)));
      try discriminate Hsuffix;
      (apply Hint in Hvalue; [exact Hvalue | tauto | rewrite ?drop_0; lia]).
Qed.

(** [7] is the [int] 7. *)
Lemma parse_number_exact_int_witness :
  parse_number (advance More.before_7)
  = Returned (More.int_7, advance (advance More.before_7))
  /\ data_type More.int_7 = DataType.Int
  /\ data_as More.int_7 = 7.
Proof.
  split; [vm_compute; reflexivity |].
  apply (parse_number_exact_int (advance More.before_7)
           (advance (advance More.before_7)) More.int_7);
    [vm_compute; reflexivity | reflexivity | vm_compute; reflexivity].
Defined.

(** X3: a literal that starts with [0] followed by a character that is
    neither [x], nor [b], nor an octal digit (an upper-case [0X] or [0B]
    prefix, or [08]) is read as octal and fails the assertion of
    [octal_to_int]. *)
Theorem parse_number_bad_octal (lexer : Lexer) (c : ascii)
    (rest : list ascii) :
  token_type (current_token lexer) = TokenType.Number ->
  list_ascii_of_string (token_string (current_token lexer))
  = "0"%char :: c :: rest ->
  c <> "x"%char -> c <> "b"%char ->
  char_between "0" c "7" = false ->
  parse_number lexer = Stopped (AssertionFailed "c >= '0' && c <= '7'").
Proof.
  intros Hnumber Htext Hx Hb Hoctal. unfold parse_number.
  rewrite (bind_step _ _ lexer (current_token lexer) lexer) by reflexivity.
  rewrite Hnumber. cbn [TokenType.eqb TokenType.tag N.eqb Pos.eqb assert].
  rewrite (bind_step _ _ lexer tt lexer) by reflexivity.
  rewrite Htext. cbn [char_at nth].
  rewrite Ascii.eqb_refl.
  apply Ascii.eqb_neq in Hx. apply Ascii.eqb_neq in Hb. rewrite Hx, Hb.
  rewrite (bind_step _ _ lexer (current_token (advance lexer))
             (advance lexer)) by reflexivity.
  assert (Hdigit : forall wrap lexer'',
             accumulate wrap 8 octal_to_int (drop 1 ("0"%char :: c :: rest))
               0 lexer''
             = Stopped (AssertionFailed "c >= '0' && c <= '7'")).
  { intros wrap lexer''. cbn [drop accumulate]. apply bind_stopped.
    unfold octal_to_int. apply bind_stopped. unfold assert.
    rewrite Hoctal. reflexivity. }
  destruct (token_type (current_token (advance lexer)));
    apply bind_stopped, Hdigit.
Qed.

Lemma parse_number_bad_octal_witness :
  token_type (current_token More.literal_0X1F) = TokenType.Number
  /\ parse_number More.literal_0X1F
     = Stopped (AssertionFailed "c >= '0' && c <= '7'").
Proof.
  split; [reflexivity |].
  apply (parse_number_bad_octal More.literal_0X1F "X"
           (list_ascii_of_string "1F"));
    [reflexivity | reflexivity | discriminate | discriminate | reflexivity].
Defined.

(** X4: each of the four digit functions returns a value from 0 up to, and
    not including, the base it is used with, or fails its assertion. *)
Theorem digit_below_base (char_to_int_function : ascii -> Parse Z)
    (base : Z) (c : ascii) (lexer lexer' : Lexer) (d : Z) :
  (char_to_int_function = hex_char_to_int /\ base = 16)
  \/ (char_to_int_function = decimal_to_int /\ base = 10)
  \/ (char_to_int_function = octal_to_int /\ base = 8)
  \/ (char_to_int_function = binary_to_int /\ base = 2) ->
  char_to_int_function c lexer = Returned (d, lexer') ->
  0 <= d < base.
Proof.
  intros [[-> ->] | [[-> ->] | [[-> ->] | [-> ->]]]] E.
  - assert (d = digit_value c)
      by (eapply digit_is_digit_value; [| exact E]; tauto).
    subst d. apply digit_value_range.
  - apply bind_returned in E as (u & l1 & Hassert & E).
    apply assert_returned in Hassert as [Hdigit ->].
    unfold ret in E. inversion E. apply char_between_bounds in Hdigit.
    change (char_code "0") with 48 in *.
    change (char_code "9") with 57 in *. lia.
  - apply bind_returned in E as (u & l1 & Hassert & E).
    apply assert_returned in Hassert as [Hdigit ->].
    unfold ret in E. inversion E. apply char_between_bounds in Hdigit.
    change (char_code "0") with 48 in *.
    change (char_code "7") with 55 in *. lia.
  - apply bind_returned in E as (u & l1 & Hassert & E).
    apply assert_returned in Hassert as [Hdigit ->].
    unfold ret in E. inversion E. apply char_between_bounds in Hdigit.
    change (char_code "0") with 48 in *.
    change (char_code "1") with 49 in *. lia.
Qed.

Lemma digit_below_base_witness :
  hex_char_to_int "F" More.before_7 = Returned (15, More.before_7)
  /\ 0 <= 15 < 16.
Proof.
  split; [reflexivity |].
  apply (digit_below_base hex_char_to_int 16 "F" More.before_7
           More.before_7 15); [tauto | reflexivity].
Defined.

(** ** Primary expressions *)

(** X5: [parse_primary_expression] returns only when the token after the
    current one is a number; the node is then a numeric constant, and the
    lexer has moved two tokens on, past the token that follows the
    number. *)
Theorem parse_primary_expression_returns_numbers (scope : ScopePtr)
    (lexer lexer' : Lexer) (node : ASTNode) :
  parse_primary_expression scope lexer = Returned (node, lexer') ->
  token_type (current_token (advance lexer)) = TokenType.Number
  /\ node_type node = ASTNodeType.NumericConstant
  /\ lexer' = advance (advance lexer).
Proof.
  unfold parse_primary_expression. intros E.
  apply bind_returned in E as (token & l1 & Hnext & E).
  unfold get_next_token in Hnext. inversion Hnext; subst; clear Hnext.
  assert (Hnumber : token_type (current_token (advance lexer))
                    = TokenType.Number).
  { destruct (token_type (current_token (advance lexer))) eqn:Hkind;
      try discriminate; [reflexivity |].
    unfold parse_number in E.
    rewrite (bind_step _ _ (advance lexer) (current_token (advance lexer))
               (advance lexer)) in E by reflexivity.
    rewrite Hkind in E. discriminate. }
  split; [exact Hnumber |]. rewrite Hnumber in E.
  apply parse_number_returned in E as (-> & Hnode & _).
  split; [exact Hnode | reflexivity].
Qed.

Lemma parse_primary_expression_returns_numbers_witness :
  parse_primary_expression None More.before_7
  = Returned (More.int_7, advance (advance More.before_7))
  /\ token_type (current_token (advance More.before_7)) = TokenType.Number
  /\ node_type More.int_7 = ASTNodeType.NumericConstant
  /\ advance (advance More.before_7) = advance (advance More.before_7).
Proof.
  split; [vm_compute; reflexivity |].
  apply (parse_primary_expression_returns_numbers None More.before_7
           (advance (advance More.before_7)) More.int_7).
  vm_compute. reflexivity.
Defined.

(** ** Nested scopes *)

Lemma scope_chain_nested inner outer :
  outer ∈ scope_chain inner ->
  forall s, s ∈ scope_chain outer -> s ∈ scope_chain inner.
Proof.
  induction inner as [v t | v t parent IH] using Scope_chain_ind;
    simpl; intros Houter s Hs.
  - apply list_elem_of_singleton in Houter. subst outer. exact Hs.
  - apply elem_of_cons in Houter as [-> | Houter].
    + exact Hs.
    + apply list_elem_of_further. apply IH; assumption.
Qed.

Lemma typedef_name_in_chain_nested type_name inner outer :
  outer ∈ scope_chain inner ->
  typedef_name_in_chain type_name outer = true ->
  typedef_name_in_chain type_name inner = true.
Proof.
  intros Houter Hfound. apply typedef_name_in_chain_spec.
  apply typedef_name_in_chain_spec in Hfound as (s & Hs & Hname).
  exists s. split; [eapply scope_chain_nested; eassumption | exact Hname].
Qed.

(** X6: a name that a lookup finds from a scope is found from every scope
    nested in it, for typedef names and for variables alike: a nested
    scope hides nothing. *)
Theorem lookup_from_nested_scope (name : string) (inner outer : Scope) :
  outer ∈ scope_chain inner ->
  (typedef_name_in_scope name (Some outer) = true ->
   typedef_name_in_scope name (Some inner) = true)
  /\ (variable_in_scope name (Some outer) = true ->
      variable_in_scope name (Some inner) = true).
Proof.
  intros Houter. split; simpl.
  - apply typedef_name_in_chain_nested, Houter.
  - intros Hfound. apply variable_in_chain_spec.
    apply variable_in_chain_spec in Hfound as (s & Hs & Hname).
    exists s. split; [eapply scope_chain_nested; eassumption | exact Hname].
Qed.

Lemma lookup_from_nested_scope_witness :
  Sample.outer ∈ scope_chain More.innermost
  /\ typedef_name_in_scope "T" (Some Sample.outer) = true
  /\ typedef_name_in_scope "T" (Some More.innermost) = true.
Proof.
  assert (Hchain : Sample.outer ∈ scope_chain More.innermost).
  { simpl. apply list_elem_of_further, list_elem_of_further,
      list_elem_of_here. }
  split; [exact Hchain |]. split; [vm_compute; reflexivity |].
  apply (proj1 (lookup_from_nested_scope "T" More.innermost Sample.outer
                  Hchain)).
  vm_compute. reflexivity.
Defined.

Lemma typedef_name_in_scope_without_typedefs name scope :
  (forall s, s ∈ scopes_from scope -> typedef_names s = ∅) ->
  typedef_name_in_scope name scope = false.
Proof.
  intros Hempty. destruct scope as [current_scope |]; [| reflexivity].
  simpl in *. apply not_true_is_false. intros Hfound.
  apply typedef_name_in_chain_spec in Hfound as (s & Hs & Hname).
  rewrite (Hempty s Hs) in Hname. apply not_elem_of_empty in Hname.
  exact Hname.
Qed.

Lemma declaration_specifier_keyword token scope :
  (forall s, s ∈ scopes_from scope -> typedef_names s = ∅) ->
  token_is_declaration_specifier token scope
  = specifier_keyword (token_type token).
Proof.
  intros Hempty.
  unfold token_is_declaration_specifier, token_is_type_specifier,
    token_is_storage_class_specifier, token_is_type_qualifier,
    token_is_function_specifier, token_is_alignment_specifier.
  rewrite (typedef_name_in_scope_without_typedefs _ _ Hempty).
  destruct (token_type token); reflexivity.
Qed.

(** X7: on a scope chain without typedef names (the scope of a translation
    unit, to which the parser never adds a name) the declaration specifiers
    are the twenty-seven keywords, whatever the lexeme of the token. *)
Theorem declaration_specifier_without_typedefs (token : Token)
    (scope : ScopePtr) :
  (forall s, s ∈ scopes_from scope -> typedef_names s = ∅) ->
  token_is_declaration_specifier token scope
  = specifier_keyword (token_type token).
Proof. apply declaration_specifier_keyword. Qed.

Lemma declaration_specifier_without_typedefs_witness :
  (forall s, s ∈ scopes_from (Some global_scope) -> typedef_names s = ∅)
  /\ token_is_declaration_specifier (Sample.identifier "T")
       (Some global_scope)
     = specifier_keyword TokenType.Identifier.
Proof.
  assert (Hempty : forall s, s ∈ scopes_from (Some global_scope) ->
                             typedef_names s = ∅).
  { intros s Hs. simpl in Hs. apply list_elem_of_singleton in Hs.
    subst s. reflexivity. }
  split; [exact Hempty |].
  apply (declaration_specifier_without_typedefs (Sample.identifier "T")
           (Some global_scope) Hempty).
Defined.

(** X8: a token that is a declaration specifier in a scope is one in every
    scope nested in it. *)
Theorem declaration_specifier_in_nested_scope (token : Token)
    (inner outer : Scope) :
  outer ∈ scope_chain inner ->
  token_is_declaration_specifier token (Some outer) = true ->
  token_is_declaration_specifier token (Some inner) = true.
Proof.
  intros Houter Hspecifier.
  apply token_is_declaration_specifier_spec.
  apply token_is_declaration_specifier_spec in Hspecifier
    as [Hs | [Hk | [Ht | Hrest]]]; try tauto.
  right. right. left. simpl in *.
  eapply typedef_name_in_chain_nested; eassumption.
Qed.

Lemma declaration_specifier_in_nested_scope_witness :
  Sample.outer ∈ scope_chain More.innermost
  /\ token_is_declaration_specifier (Sample.identifier "T")
       (Some Sample.outer) = true
  /\ token_is_declaration_specifier (Sample.identifier "T")
       (Some More.innermost) = true.
Proof.
  assert (Hchain : Sample.outer ∈ scope_chain More.innermost).
  { simpl. apply list_elem_of_further, list_elem_of_further,
      list_elem_of_here. }
  split; [exact Hchain |]. split; [vm_compute; reflexivity |].
  apply (declaration_specifier_in_nested_scope (Sample.identifier "T")
           More.innermost Sample.outer Hchain).
  vm_compute. reflexivity.
Defined.

(** ** Pointers and declarators *)

Lemma type_qualifier_is_no_asterisk token :
  token_is_type_qualifier token = true ->
  TokenType.eqb (token_type token) TokenType.Asterisk = false.
Proof.
  unfold token_is_type_qualifier.
  destruct (token_type token); try discriminate; reflexivity.
Qed.

Lemma type_qualifier_list_loop_run `{Collaborators} t rest :
  token_is_type_qualifier t = false ->
  forall qualifiers q declaration folded fuel,
    Forall (fun q => token_is_type_qualifier q = true) (q :: qualifiers) ->
    fold_declaration (q :: qualifiers) declaration = Returned folded ->
    (length (q :: qualifiers) <= fuel)%nat ->
    type_qualifier_list_loop fuel q declaration
      (mkLexer q (qualifiers ++ t :: rest))
    = Returned (tt, mkLexer t rest).
Proof.
  intros Ht qualifiers.
  induction qualifiers as [| q2 qualifiers IH];
    intros q declaration folded fuel Hqualifiers Hfold Hfuel;
    (destruct fuel as [| fuel]; [simpl in Hfuel; lia |]);
    cbn [type_qualifier_list_loop];
    rewrite (Forall_inv Hqualifiers);
    cbn [fold_declaration] in Hfold;
    unfold bind at 1, lift;
    (destruct (update_declaration q declaration) as [declaration' | f];
     [| discriminate]);
    unfold bind, get_next_token; cbn [advance upcoming current_token app].
  - destruct fuel; cbn [type_qualifier_list_loop]; rewrite Ht; reflexivity.
  - eapply IH.
    + exact (Forall_inv_tail Hqualifiers).
    + exact Hfold.
    + simpl in *. lia.
Qed.

Lemma parse_pointer_run `{Collaborators} qualifiers t rest folded :
  Forall (fun q => token_is_type_qualifier q = true) qualifiers ->
  token_is_type_qualifier t = false ->
  (qualifiers = [] -> token_type t <> TokenType.Asterisk) ->
  fold_declaration qualifiers empty_declaration = Returned folded ->
  forall stars star fuel,
    Forall (fun s => token_type s = TokenType.Asterisk) (star :: stars) ->
    (length (star :: stars) + length qualifiers <= fuel)%nat ->
    parse_pointer fuel (mkLexer star (stars ++ qualifiers ++ t :: rest))
    = Returned (tt, mkLexer t rest).
Proof.
  intros Hqualifiers Ht Hplain Hfold stars.
  induction stars as [| star2 stars IH]; intros star fuel Hstars Hfuel;
    (destruct fuel as [| fuel]; [simpl in Hfuel; lia |]);
    cbn [parse_pointer];
    unfold bind at 1, expect_and_get_next_token;
    cbn [current_token]; rewrite (Forall_inv Hstars);
    cbn [TokenType.eqb TokenType.tag N.eqb Pos.eqb];
    unfold get_next_token; cbn [advance upcoming current_token app].
  - destruct qualifiers as [| q qualifiers];
      cbn [app advance upcoming current_token].
    + apply TokenType_eqb_neq in Hplain; [| reflexivity].
      rewrite Hplain, Ht. reflexivity.
    + rewrite (type_qualifier_is_no_asterisk q (Forall_inv Hqualifiers)).
      rewrite (Forall_inv Hqualifiers).
      unfold parse_type_qualifier_list.
      rewrite (bind_step _ _ _ q (mkLexer q (qualifiers ++ t :: rest)))
        by reflexivity.
      eapply type_qualifier_list_loop_run; try eassumption.
      simpl in *. lia.
  - rewrite (Forall_inv (Forall_inv_tail Hstars)).
    cbn [TokenType.eqb TokenType.tag N.eqb Pos.eqb].
    apply IH; [exact (Forall_inv_tail Hstars) | simpl in *; lia].
Qed.

(** X9: [parse_pointer], called on a [*], reads a run of [*] tokens and
    the type-qualifier list that follows the last of them, and returns on
    the next token.  After a qualifier list it returns also when that token
    is another [*]: [* const * x] is not read as one pointer. *)
Theorem parse_pointer_reads_run `{Collaborators}
    (star : Token) (stars qualifiers : list Token) (t : Token)
    (rest : list Token) (folded : Declaration) (fuel : nat) :
  Forall (fun s => token_type s = TokenType.Asterisk) (star :: stars) ->
  Forall (fun q => token_is_type_qualifier q = true) qualifiers ->
  token_is_type_qualifier t = false ->
  (qualifiers = [] -> token_type t <> TokenType.Asterisk) ->
  fold_declaration qualifiers empty_declaration = Returned folded ->
  (length (star :: stars) + length qualifiers <= fuel)%nat ->
  parse_pointer fuel (lexer_at (star :: stars ++ qualifiers ++ t :: rest))
  = Returned (tt, lexer_at (t :: rest)).
Proof.
  intros Hstars Hqualifiers Ht Hplain Hfold Hfuel.
  eapply parse_pointer_run; eassumption.
Qed.

(** [* * const volatile * x ;]: the lexer is left on the third [*]. *)
Lemma parse_pointer_reads_run_witness :
  @parse_pointer sample_collaborators 4
    (lexer_at (More.pointer_run ++ More.qualifier_run
               ++ More.after_pointer))
  = Returned (tt, lexer_at More.after_pointer).
Proof.
  apply (@parse_pointer_reads_run sample_collaborators Sample.asterisk
           [Sample.asterisk] More.qualifier_run Sample.asterisk
           [Sample.identifier "x"; Sample.semicolon]
           More.qualifier_run 4).
  - repeat constructor.
  - repeat constructor.
  - reflexivity.
  - discriminate.
  - reflexivity.
  - simpl. lia.
Defined.

(** X10: [parse_abstract_declarator] reads the same pointer prefix when it
    stands on a [*], and returns the abstract type it was given at the
    start. *)
Theorem parse_abstract_declarator_reads_pointer `{Collaborators}
    (AbstractType : Type) (new_abstract_type : AbstractType)
    (star : Token) (stars qualifiers : list Token) (t : Token)
    (rest : list Token) (folded : Declaration) (fuel : nat) :
  Forall (fun s => token_type s = TokenType.Asterisk) (star :: stars) ->
  Forall (fun q => token_is_type_qualifier q = true) qualifiers ->
  token_is_type_qualifier t = false ->
  (qualifiers = [] -> token_type t <> TokenType.Asterisk) ->
  fold_declaration qualifiers empty_declaration = Returned folded ->
  (length (star :: stars) + length qualifiers <= fuel)%nat ->
  parse_abstract_declarator AbstractType new_abstract_type fuel
    (lexer_at (star :: stars ++ qualifiers ++ t :: rest))
  = Returned (new_abstract_type, lexer_at (t :: rest)).
Proof.
  intros Hstars Hqualifiers Ht Hplain Hfold Hfuel.
  unfold parse_abstract_declarator.
  rewrite (bind_step _ _ _ star
             (lexer_at (star :: stars ++ qualifiers ++ t :: rest)))
    by reflexivity.
  rewrite (Forall_inv Hstars).
  cbn [TokenType.eqb TokenType.tag N.eqb Pos.eqb].
  rewrite (bind_step _ _ _ tt (lexer_at (t :: rest)));
    [reflexivity |].
  eapply parse_pointer_run; eassumption.
Qed.

Lemma parse_abstract_declarator_reads_pointer_witness :
  @parse_abstract_declarator sample_collaborators nat 0%nat 4
    (lexer_at (More.pointer_run ++ More.qualifier_run
               ++ More.after_pointer))
  = Returned (0%nat, lexer_at More.after_pointer).
Proof.
  apply (@parse_abstract_declarator_reads_pointer sample_collaborators
           nat 0%nat Sample.asterisk
           [Sample.asterisk] More.qualifier_run Sample.asterisk
           [Sample.identifier "x"; Sample.semicolon]
           More.qualifier_run 4).
  - repeat constructor.
  - repeat constructor.
  - reflexivity.
  - discriminate.
  - reflexivity.
  - simpl. lia.
Defined.

Lemma parse_declarator_run_nothing `{Collaborators} fuel lexer :
  token_type (current_token lexer) <> TokenType.Asterisk ->
  token_type (current_token lexer) <> TokenType.LParen ->
  token_type (current_token lexer) <> TokenType.Identifier ->
  parse_declarator (S fuel) lexer = Returned (tt, lexer).
Proof.
  intros Hstar Hparen Hname.
  apply TokenType_eqb_neq in Hstar, Hparen, Hname.
  cbn [parse_declarator].
  rewrite (bind_step _ _ lexer (current_token lexer) lexer) by reflexivity.
  rewrite Hstar.
  rewrite (bind_step _ _ lexer tt lexer) by reflexivity.
  unfold direct_declarator_body.
  rewrite (bind_step _ _ lexer None lexer); [reflexivity |].
  rewrite (bind_step _ _ lexer (current_token lexer) lexer) by reflexivity.
  rewrite Hparen.
  rewrite (bind_step _ _ lexer (current_token lexer) lexer) by reflexivity.
  rewrite Hname. reflexivity.
Qed.



Lemma direct_declarator_body_named (declarator : Parse unit)
    (name terminator : Token) (rest : list Token) :
  token_type name = TokenType.Identifier ->
  token_string name <> "" ->
  token_type terminator = TokenType.Semicolon
  \/ token_type terminator = TokenType.Comma ->
  direct_declarator_body declarator None
    (lexer_at (name :: terminator :: rest))
  = Returned (Some (mkObject (token_string name) None None),
              lexer_at (terminator :: rest)).
Proof.
  intros Hname Hnonempty Hterminator.
  unfold direct_declarator_body.
  rewrite (bind_step _ _ _ name (lexer_at (name :: terminator :: rest)))
    by reflexivity.
  rewrite Hname. cbn [TokenType.eqb TokenType.tag N.eqb Pos.eqb].
  rewrite (bind_step _ _ _ name (lexer_at (name :: terminator :: rest)))
    by reflexivity.
  rewrite Hname. cbn [TokenType.eqb TokenType.tag N.eqb Pos.eqb].
  rewrite (bind_step _ _ _ tt (lexer_at (name :: terminator :: rest)))
    by reflexivity.
  cbn [object_name new_object object_type function_body].
  apply String.eqb_neq in Hnonempty. rewrite Hnonempty. cbn [negb assert].
  rewrite (bind_step _ _ _ tt (lexer_at (name :: terminator :: rest)))
    by reflexivity.
  rewrite (bind_step _ _ _ terminator (lexer_at (terminator :: rest)))
    by reflexivity.
  destruct Hterminator as [-> | ->]; reflexivity.
Qed.

(** X12: for a name followed by [;] or [,] [parse_direct_declarator]
    returns an object that has the name and neither type nor body, and
    leaves the lexer on the [;] or [,]. *)
Theorem parse_direct_declarator_names_object `{Collaborators}
    (fuel : nat) (name terminator : Token) (rest : list Token) :
  token_type name = TokenType.Identifier ->
  token_string name <> "" ->
  token_type terminator = TokenType.Semicolon
  \/ token_type terminator = TokenType.Comma ->
  parse_direct_declarator fuel None (lexer_at (name :: terminator :: rest))
  = Returned (Some (mkObject (token_string name) None None),
              lexer_at (terminator :: rest)).
Proof. intros. apply direct_declarator_body_named; assumption. Qed.

Lemma parse_direct_declarator_names_object_witness :
  @parse_direct_declarator sample_collaborators 0 None More.x_comma_y
  = Returned (Some (mkObject "x" None None), More.comma_y).
Proof.
  apply (@parse_direct_declarator_names_object sample_collaborators 0
           (Sample.identifier "x") More.comma
           [Sample.identifier "y"; Sample.semicolon]);
    [reflexivity | discriminate | right; reflexivity].
Defined.

(** ** Declarations *)

Lemma parse_init_declarator_accepts_nothing `{Collaborators} fuel lexer :
  token_type (current_token lexer) <> TokenType.Asterisk ->
  token_type (current_token lexer) <> TokenType.LParen ->
  token_type (current_token lexer) <> TokenType.Identifier ->
  parse_init_declarator (S fuel) lexer
  = Returned (new_ast_node ASTNodeType.Declaration, lexer).
Proof.
  intros Hstar Hparen Hname. unfold parse_init_declarator.
  rewrite (bind_step _ _ lexer tt lexer)
    by (apply parse_declarator_run_nothing; assumption).
  rewrite (bind_step _ _ lexer (current_token lexer) lexer) by reflexivity.
  destruct (TokenType.eqb _ _); reflexivity.
Qed.

Lemma declaration_loop_stuck `{Collaborators} lexer :
  token_type (current_token lexer) <> TokenType.Semicolon ->
  token_type (current_token lexer) <> TokenType.Asterisk ->
  token_type (current_token lexer) <> TokenType.LParen ->
  token_type (current_token lexer) <> TokenType.Identifier ->
  forall fuel nodes, declaration_loop fuel nodes lexer = Stopped OutOfFuel.
Proof.
  intros Hsemicolon Hstar Hparen Hname.
  apply TokenType_eqb_neq in Hsemicolon.
  induction fuel as [| fuel IH]; intros nodes; cbn [declaration_loop];
    rewrite (bind_step _ _ lexer (current_token lexer) lexer)
      by reflexivity;
    rewrite Hsemicolon; [reflexivity |].
  destruct fuel as [| fuel].
  - reflexivity.
  - rewrite (bind_step _ _ lexer (new_ast_node ASTNodeType.Declaration)
               lexer)
      by (apply parse_init_declarator_accepts_nothing; assumption).
    apply IH.
Qed.



Lemma get_current_token_returned lexer token lexer' :
  get_current_token lexer = Returned (token, lexer') ->
  token = current_token lexer /\ lexer' = lexer.
Proof. unfold get_current_token. intros E. inversion E. split; reflexivity. Qed.

Lemma get_next_token_returned lexer token lexer' :
  get_next_token lexer = Returned (token, lexer') ->
  token = current_token (advance lexer) /\ lexer' = advance lexer.
Proof. unfold get_next_token. intros E. inversion E. split; reflexivity. Qed.

(** X14: a declaration of two declarators, [specifier name , ...], makes
    [parse_declaration] stand on the [,] for ever: it returns for no
    fuel. *)
Theorem parse_declaration_two_declarators `{Collaborators}
    (fuel : nat) (scope : ScopePtr) (specifier name comma : Token)
    (rest : list Token) :
  token_is_declaration_specifier specifier scope = true ->
  token_is_declaration_specifier name scope = false ->
  token_type name = TokenType.Identifier ->
  token_string name <> "" ->
  token_type comma = TokenType.Comma ->
  forall r,
    parse_declaration fuel scope
      (lexer_at (specifier :: name :: comma :: rest))
    <> Returned r.
Proof.
  intros Hspecifier Hplain Hname Hnonempty Hcomma r E.
  unfold parse_declaration in E.
  apply bind_returned in E as (current & l0 & Hcurrent & E).
  apply get_current_token_returned in Hcurrent as [-> ->].
  apply bind_returned in E as ([] & l1 & Hassert & E).
  apply assert_returned in Hassert as [_ ->].
  apply bind_returned in E as (declaration & l2 & Hspecifiers & E).
  assert (Hafter : l2 = lexer_at (name :: comma :: rest)).
  { unfold parse_declaration_specifiers in Hspecifiers.
    apply bind_returned in Hspecifiers as (first & l0 & Hcurrent & Hloop).
    apply get_current_token_returned in Hcurrent as [-> ->].
    destruct fuel as [| fuel]; cbn [declaration_specifiers_loop] in Hloop;
      cbn [lexer_at current_token] in Hloop;
      rewrite Hspecifier in Hloop; [discriminate |].
    apply bind_returned in Hloop as (d1 & l1 & Hupdate & Hloop).
    unfold lift in Hupdate.
    destruct (update_declaration specifier empty_declaration);
      [| discriminate].
    injection Hupdate as <- <-.
    apply bind_returned in Hloop as (next & l2' & Hnext & Hloop).
    apply get_next_token_returned in Hnext as [-> ->].
    cbn [lexer_at advance upcoming current_token] in Hloop.
    destruct fuel; cbn [declaration_specifiers_loop] in Hloop;
      rewrite Hplain in Hloop; unfold ret in Hloop;
      injection Hloop as _ <-; reflexivity. }
  subst l2.
  apply bind_returned in E as (nodes & l3 & Hloop & _).
  destruct fuel as [| fuel]; cbn [declaration_loop] in Hloop;
    rewrite (bind_step _ _ _ name (lexer_at (name :: comma :: rest)))
      in Hloop by reflexivity;
    rewrite Hname in Hloop;
    cbn [TokenType.eqb TokenType.tag N.eqb Pos.eqb] in Hloop;
    [discriminate |].
  destruct fuel as [| fuel]; [discriminate |].
  assert (Hfirst : parse_init_declarator (S fuel)
                     (lexer_at (name :: comma :: rest))
                   = Returned (new_ast_node ASTNodeType.Declaration,
                               lexer_at (comma :: rest))).
  { unfold parse_init_declarator. cbn [parse_declarator].
    rewrite (bind_step _ _ _ tt (lexer_at (comma :: rest))).
    - rewrite (bind_step _ _ _ comma (lexer_at (comma :: rest)))
        by reflexivity.
      rewrite Hcomma. reflexivity.
    - rewrite (bind_step _ _ _ name (lexer_at (name :: comma :: rest)))
        by reflexivity.
      rewrite Hname. cbn [TokenType.eqb TokenType.tag N.eqb Pos.eqb].
      rewrite (bind_step _ _ _ tt (lexer_at (name :: comma :: rest)))
        by reflexivity.
      rewrite (bind_step _ _ _ _ _
                 (direct_declarator_body_named _ name comma rest Hname
                    Hnonempty (or_intror Hcomma))).
      reflexivity. }
  rewrite (bind_step _ _ _ _ _ Hfirst) in Hloop.
  rewrite declaration_loop_stuck in Hloop;
    [discriminate | | | |]; cbn [lexer_at current_token];
    rewrite Hcomma; discriminate.
Qed.

Lemma parse_declaration_two_declarators_witness :
  @parse_declaration sample_collaborators 6 None
    (lexer_at (Sample.kw_int :: Sample.identifier "x" :: More.comma
               :: [Sample.identifier "y"; Sample.semicolon]))
  <> Returned (None, lexer_at []).
Proof.
  apply (@parse_declaration_two_declarators sample_collaborators 6 None
           Sample.kw_int (Sample.identifier "x") More.comma
           [Sample.identifier "y"; Sample.semicolon]);
    [reflexivity | reflexivity | reflexivity | discriminate | reflexivity].
Defined.

Lemma declaration_loop_returns_on_semicolon `{Collaborators} :
  forall fuel nodes lexer result lexer',
    declaration_loop fuel nodes lexer = Returned (result, lexer') ->
    token_type (current_token lexer') = TokenType.Semicolon.
Proof.
  induction fuel as [| fuel IH]; intros nodes lexer result lexer' E;
    cbn [declaration_loop] in E;
    apply bind_returned in E as (current & l0 & Hcurrent & E);
    unfold get_current_token in Hcurrent; inversion Hcurrent; subst;
    clear Hcurrent;
    destruct (TokenType.eqb (token_type (current_token l0))
                TokenType.Semicolon) eqn:Hsemicolon;
    try discriminate;
    try (unfold ret in E; inversion E; subst;
         apply TokenType_eqb_eq, Hsemicolon).
  apply bind_returned in E as (node & l1 & _ & E). eapply IH, E.
Qed.

Lemma parse_declaration_leaves_semicolon_lemma `{Collaborators}
    fuel scope lexer lexer' chain :
  parse_declaration fuel scope lexer = Returned (chain, lexer') ->
  token_type (current_token lexer') = TokenType.Semicolon.
Proof.
  unfold parse_declaration. intros E.
  apply bind_returned in E as (current & l0 & _ & E).
  apply bind_returned in E as (u & l1 & _ & E).
  apply bind_returned in E as (declaration & l2 & _ & E).
  apply bind_returned in E as (nodes & l3 & Hloop & E).
  unfold ret in E. inversion E; subst.
  eapply declaration_loop_returns_on_semicolon, Hloop.
Qed.

(** X15: when [parse_declaration] returns, the lexer stands on a [;]: the
    [;] that ends the declaration is not read. *)
Theorem parse_declaration_leaves_semicolon `{Collaborators}
    (fuel : nat) (scope : ScopePtr) (lexer lexer' : Lexer)
    (chain : option ASTNode) :
  parse_declaration fuel scope lexer = Returned (chain, lexer') ->
  token_type (current_token lexer') = TokenType.Semicolon.
Proof. apply parse_declaration_leaves_semicolon_lemma. Qed.

(** [int x ;]: one declaration node, the lexer on the [;]. *)
Lemma parse_declaration_leaves_semicolon_witness :
  @parse_declaration sample_collaborators 3 None
    (lexer_at [Sample.kw_int; Sample.identifier "x"; Sample.semicolon])
  = Returned (Some (new_ast_node ASTNodeType.Declaration),
              lexer_at [Sample.semicolon])
  /\ token_type (current_token (lexer_at [Sample.semicolon]))
     = TokenType.Semicolon.
Proof.
  split; [vm_compute; reflexivity |].
  apply (@parse_declaration_leaves_semicolon sample_collaborators 3 None
           (lexer_at [Sample.kw_int; Sample.identifier "x";
                      Sample.semicolon])
           (lexer_at [Sample.semicolon])
           (Some (new_ast_node ASTNodeType.Declaration))).
  vm_compute. reflexivity.
Defined.

(** ** Statements and blocks *)

Lemma parse_statement_stub `{Collaborators} fuel scope lexer :
  reads_no_token (token_type (current_token lexer)) = true ->
  parse_statement (S fuel) scope lexer
  = Returned (Some (new_ast_node ASTNodeType.Void), lexer).
Proof.
  intros Hkind. cbn [parse_statement]. unfold statement_switch.
  rewrite (bind_step _ _ lexer (current_token lexer) lexer) by reflexivity.
  destruct (token_type (current_token lexer)); try discriminate Hkind;
    reflexivity.
Qed.

(** X16: for every statement that does not begin with [{], [goto],
    [continue], [break] or [return], [parse_statement] returns an empty
    node of kind [Void] and reads no token. *)
Theorem parse_statement_reads_nothing `{Collaborators}
    (fuel : nat) (scope : ScopePtr) (lexer : Lexer) :
  reads_no_token (token_type (current_token lexer)) = true ->
  parse_statement (S fuel) scope lexer
  = Returned (Some (new_ast_node ASTNodeType.Void), lexer).
Proof. apply parse_statement_stub. Qed.

Lemma parse_statement_reads_nothing_witness :
  @parse_statement sample_collaborators 1 None Sample.x_equals_1
  = Returned (Some (new_ast_node ASTNodeType.Void), Sample.x_equals_1).
Proof.
  apply (@parse_statement_reads_nothing sample_collaborators 0 None
           Sample.x_equals_1).
  reflexivity.
Defined.

Lemma compound_statement_loop_stuck `{Collaborators} handler_fuel scope
    lexer :
  reads_no_token (token_type (current_token lexer)) = true ->
  token_type (current_token lexer) <> TokenType.RBrace ->
  token_is_declaration_specifier (current_token lexer) scope = false ->
  forall fuel nodes,
    compound_statement_loop (parse_declaration handler_fuel)
      (parse_statement handler_fuel) fuel scope nodes false lexer
    = Stopped OutOfFuel.
Proof.
  intros Hkind Hbrace Hplain. apply TokenType_eqb_neq in Hbrace.
  induction fuel as [| fuel IH]; intros nodes;
    cbn [compound_statement_loop];
    rewrite (bind_step _ _ lexer (current_token lexer) lexer)
      by reflexivity;
    rewrite Hbrace; cbn [negb]; [reflexivity |].
  rewrite Hplain.
  destruct handler_fuel as [| handler_fuel]; [reflexivity |].
  rewrite (bind_step _ _ _ _ _ (parse_statement_stub _ _ _ Hkind)).
  unfold chain_node.
  rewrite (bind_step _ _ lexer
             ((nodes ++ [new_ast_node ASTNodeType.Void])%list, false)
             lexer) by reflexivity.
  apply IH.
Qed.

(** X17: a block whose first item is such a statement ([{ x = 1; }], for
    one) is never parsed to its end: the statement parser reads nothing,
    the loop of [parse_compound_statement] stays on the same token, and
    the run is cut off whatever the fuel. *)
Theorem parse_compound_statement_never_ends `{Collaborators}
    (fuel : nat) (scope : ScopePtr) (lexer : Lexer) :
  token_type (current_token lexer) = TokenType.LBrace ->
  reads_no_token (token_type (current_token (advance lexer))) = true ->
  token_type (current_token (advance lexer)) <> TokenType.RBrace ->
  token_is_declaration_specifier (current_token (advance lexer)) scope
  = false ->
  parse_compound_statement fuel scope lexer = Stopped OutOfFuel.
Proof.
  intros Hopen Hkind Hbrace Hplain.
  unfold parse_compound_statement, compound_statement_body.
  rewrite (bind_step _ _ lexer (current_token lexer) lexer) by reflexivity.
  rewrite Hopen. cbn [TokenType.eqb TokenType.tag N.eqb Pos.eqb assert].
  rewrite (bind_step _ _ lexer tt lexer) by reflexivity.
  rewrite (bind_step _ _ lexer (current_token (advance lexer))
             (advance lexer)) by reflexivity.
  apply bind_stopped. apply compound_statement_loop_stuck; assumption.
Qed.

Lemma parse_compound_statement_never_ends_witness :
  @parse_compound_statement sample_collaborators 7 None
    More.block_assignment
  = Stopped OutOfFuel.
Proof.
  apply (@parse_compound_statement_never_ends sample_collaborators 7 None
           More.block_assignment);
    [reflexivity | reflexivity | discriminate | reflexivity].
Defined.

(** X18: the empty block [{ }] is parsed with any fuel, also none; its
    body is the null pointer, and both braces are read. *)
Theorem parse_compound_statement_empty_block
    (declaration statement : ScopePtr -> Parse (option ASTNode))
    (fuel : nat) (scope : ScopePtr) (lexer : Lexer) :
  token_type (current_token lexer) = TokenType.LBrace ->
  token_type (current_token (advance lexer)) = TokenType.RBrace ->
  compound_statement_body declaration statement fuel scope lexer
  = Returned (None, advance (advance lexer)).
Proof.
  intros Hopen Hclose. unfold compound_statement_body.
  rewrite (bind_step _ _ lexer (current_token lexer) lexer) by reflexivity.
  rewrite Hopen. cbn [TokenType.eqb TokenType.tag N.eqb Pos.eqb assert].
  rewrite (bind_step _ _ lexer tt lexer) by reflexivity.
  rewrite (bind_step _ _ lexer (current_token (advance lexer))
             (advance lexer)) by reflexivity.
  rewrite (bind_step _ _ (advance lexer) [] (advance lexer)).
  - rewrite (bind_step _ _ (advance lexer) (current_token (advance lexer))
               (advance lexer)) by reflexivity.
    rewrite Hclose. reflexivity.
  - destruct fuel; cbn [compound_statement_loop];
      rewrite (bind_step _ _ (advance lexer)
                 (current_token (advance lexer)) (advance lexer))
        by reflexivity;
      rewrite Hclose; reflexivity.
Qed.

Lemma parse_compound_statement_empty_block_witness :
  @parse_compound_statement sample_collaborators 0 None More.empty_block
  = Returned (None, lexer_at [Sample.semicolon]).
Proof.
  apply (parse_compound_statement_empty_block
           (@parse_declaration sample_collaborators 0)
           (@parse_statement sample_collaborators 0) 0 None
           More.empty_block); reflexivity.
Defined.

Lemma specifier_keyword_no_brace token scope :
  (forall s, s ∈ scopes_from scope -> typedef_names s = ∅) ->
  token_is_declaration_specifier token scope = true ->
  TokenType.eqb (token_type token) TokenType.RBrace = false.
Proof.
  intros Hempty Hspecifier.
  unfold token_is_declaration_specifier, token_is_type_specifier,
    token_is_storage_class_specifier, token_is_type_qualifier,
    token_is_function_specifier, token_is_alignment_specifier
    in Hspecifier.
  rewrite (typedef_name_in_scope_without_typedefs _ _ Hempty)
    in Hspecifier.
  destruct (token_type token); try discriminate Hspecifier; reflexivity.
Qed.

Lemma compound_statement_loop_after_declaration `{Collaborators}
    handler_fuel scope lexer :
  (forall s, s ∈ scopes_from scope -> typedef_names s = ∅) ->
  token_type (current_token lexer) = TokenType.Semicolon ->
  forall fuel nodes previous_null r,
    compound_statement_loop (parse_declaration handler_fuel)
      (parse_statement handler_fuel) fuel scope nodes previous_null lexer
    <> Returned r.
Proof.
  intros Hempty Hsemicolon.
  assert (Hplain : token_is_declaration_specifier (current_token lexer)
                     scope = false).
  { unfold token_is_declaration_specifier, token_is_type_specifier,
      token_is_storage_class_specifier, token_is_type_qualifier,
      token_is_function_specifier, token_is_alignment_specifier.
    rewrite (typedef_name_in_scope_without_typedefs _ _ Hempty).
    rewrite Hsemicolon. reflexivity. }
  assert (Hbrace : TokenType.eqb (token_type (current_token lexer))
                     TokenType.RBrace = false)
    by (rewrite Hsemicolon; reflexivity).
  assert (Hkind : reads_no_token (token_type (current_token lexer)) = true)
    by (rewrite Hsemicolon; reflexivity).
  induction fuel as [| fuel IH]; intros nodes previous_null r E;
    cbn [compound_statement_loop] in E;
    rewrite (bind_step _ _ lexer (current_token lexer) lexer) in E
      by reflexivity;
    rewrite Hbrace in E; cbn [negb] in E; [discriminate |].
  rewrite Hplain in E.
  destruct handler_fuel as [| handler_fuel].
  - apply bind_returned in E as (node & l1 & Hitem & _). discriminate Hitem.
  - rewrite (bind_step _ _ _ _ _ (parse_statement_stub _ _ _ Hkind)) in E.
    unfold chain_node in E. destruct previous_null.
    + apply bind_returned in E as (chained & l1 & Hchained & _).
      discriminate Hchained.
    + rewrite (bind_step _ _ lexer
                 ((nodes ++ [new_ast_node ASTNodeType.Void])%list, false)
                 lexer) in E by reflexivity.
      eapply IH, E.
Qed.

(** X19: on a scope chain without typedef names, a block whose first item
    is a declaration is never parsed to its end: [parse_declaration]
    leaves the [;] unread, the statement parser reads nothing at a [;],
    and [parse_compound_statement] returns for no fuel. *)
Theorem parse_compound_statement_declaration_never_ends `{Collaborators}
    (fuel : nat) (scope : ScopePtr) (lexer : Lexer) :
  (forall s, s ∈ scopes_from scope -> typedef_names s = ∅) ->
  token_type (current_token lexer) = TokenType.LBrace ->
  token_is_declaration_specifier (current_token (advance lexer)) scope
  = true ->
  forall r, parse_compound_statement fuel scope lexer <> Returned r.
Proof.
  intros Hempty Hopen Hspecifier r E.
  unfold parse_compound_statement, compound_statement_body in E.
  rewrite (bind_step _ _ lexer (current_token lexer) lexer) in E
    by reflexivity.
  rewrite Hopen in E.
  cbn [TokenType.eqb TokenType.tag N.eqb Pos.eqb assert] in E.
  rewrite (bind_step _ _ lexer tt lexer) in E by reflexivity.
  rewrite (bind_step _ _ lexer (current_token (advance lexer))
             (advance lexer)) in E by reflexivity.
  apply bind_returned in E as (nodes & l1 & Hloop & _).
  destruct fuel as [| fuel]; cbn [compound_statement_loop] in Hloop;
    rewrite (bind_step _ _ (advance lexer) (current_token (advance lexer))
               (advance lexer)) in Hloop by reflexivity;
    rewrite (specifier_keyword_no_brace _ _ Hempty Hspecifier) in Hloop;
    cbn [negb] in Hloop; [discriminate |].
  rewrite Hspecifier in Hloop.
  apply bind_returned in Hloop as (chain & l2 & Hdeclaration & Hloop).
  apply parse_declaration_leaves_semicolon_lemma in Hdeclaration.
  apply bind_returned in Hloop as (chained & l3 & Hchained & Hloop).
  assert (l3 = l2) as ->.
  { unfold chain_node in Hchained. destruct chain;
      unfold ret in Hchained; injection Hchained as _ <-; reflexivity. }
  eapply compound_statement_loop_after_declaration in Hloop; eassumption.
Qed.

Lemma parse_compound_statement_declaration_never_ends_witness :
  @parse_compound_statement sample_collaborators 9 (Some global_scope)
    More.block_declaration
  <> Returned (None, lexer_at []).
Proof.
  apply (@parse_compound_statement_declaration_never_ends
           sample_collaborators 9 (Some global_scope)
           More.block_declaration).
  - intros s Hs. simpl in Hs. apply list_elem_of_singleton in Hs.
    subst s. reflexivity.
  - reflexivity.
  - vm_compute. reflexivity.
Defined.

(** ** Jump statements *)

(** X20: [parse_jump_statement] returns only for a statement that begins
    with [return]: [goto], [continue] and [break] statements all end in an
    error, because their keyword is still the current token where the
    identifier or the [;] is expected. *)
Theorem parse_jump_statement_returns_for_return_only `{Collaborators}
    (scope : ScopePtr) (lexer lexer' : Lexer) (node : option ASTNode) :
  parse_jump_statement scope lexer = Returned (node, lexer') ->
  token_type (current_token lexer) = TokenType.Return.
Proof.
  unfold parse_jump_statement. intros E.
  rewrite (bind_step _ _ lexer (current_token lexer) lexer) in E
    by reflexivity.
  destruct (token_type (current_token lexer)) eqn:Hkind;
    try reflexivity; exfalso.
  all: try (apply bind_returned in E as (u & l1 & Hassert & _);
            discriminate Hassert).
  - rewrite (bind_step _ _ lexer (current_token lexer) lexer) in E
      by reflexivity.
    rewrite Hkind in E.
    apply bind_returned in E as (u & l1 & Herror & _). discriminate Herror.
  - unfold jump_semicolon in E.
    apply bind_returned in E as (u & l1 & Hexpect & _).
    unfold expect_and_get_next_token in Hexpect.
    rewrite Hkind in Hexpect. discriminate Hexpect.
  - unfold jump_semicolon in E.
    apply bind_returned in E as (u & l1 & Hexpect & _).
    unfold expect_and_get_next_token in Hexpect.
    rewrite Hkind in Hexpect. discriminate Hexpect.
Qed.

Lemma parse_jump_statement_returns_for_return_only_witness :
  @parse_jump_statement sample_collaborators None More.return_nothing
  = Returned (Some (new_ast_node ASTNodeType.Void),
              lexer_at [Sample.rbrace])
  /\ token_type (current_token More.return_nothing) = TokenType.Return.
Proof.
  split; [reflexivity |].
  apply (@parse_jump_statement_returns_for_return_only
           sample_collaborators None More.return_nothing
           (lexer_at [Sample.rbrace])
           (Some (new_ast_node ASTNodeType.Void))).
  reflexivity.
Defined.

(** [continue ;] ends in the error of the missing [;]. *)
Example parse_jump_statement_continue :
  @parse_jump_statement sample_collaborators None More.continue_statement
  = Stopped (ErrorToken ("Expected semicolon after jump statement"
                         ++ newline)).
Proof. reflexivity. Qed.

(** X21: a [return] statement.  When [;] follows the keyword the node has
    no operand and both tokens are read; otherwise the operand is what
    [parse_expression] returns, and the token after it must be [;], which
    is read. *)
Theorem parse_jump_statement_return `{Collaborators}
    (scope : ScopePtr) (lexer : Lexer) :
  token_type (current_token lexer) = TokenType.Return ->
  parse_jump_statement scope lexer
  = if TokenType.eqb (token_type (current_token (advance lexer)))
         TokenType.Semicolon
    then Returned (Some (new_ast_node ASTNodeType.Void),
                   advance (advance lexer))
    else
      match parse_expression scope (advance lexer) with
      | Returned (value, after_value) =>
          if TokenType.eqb (token_type (current_token after_value))
               TokenType.Semicolon
          then Returned (Some (set_rhs (new_ast_node ASTNodeType.Void)
                                 value),
                         advance after_value)
          else Stopped (ErrorToken
                          ("Expected semicolon after jump statement"
                           ++ newline))
      | Stopped f => Stopped f
      end.
Proof.
  intros Hreturn. unfold parse_jump_statement.
  rewrite (bind_step _ _ lexer (current_token lexer) lexer) by reflexivity.
  rewrite Hreturn. unfold jump_return.
  rewrite (bind_step _ _ lexer (current_token (advance lexer))
             (advance lexer)) by reflexivity.
  rewrite (bind_step _ _ (advance lexer) (current_token (advance lexer))
             (advance lexer)) by reflexivity.
  destruct (TokenType.eqb (token_type (current_token (advance lexer)))
              TokenType.Semicolon) eqn:Hsemicolon; cbn [negb].
  - rewrite (bind_step _ _ (advance lexer)
               (new_ast_node ASTNodeType.Void) (advance lexer))
      by reflexivity.
    unfold jump_semicolon, bind, expect_and_get_next_token.
    rewrite Hsemicolon. reflexivity.
  - unfold bind at 1. unfold bind at 1.
    destruct (parse_expression scope (advance lexer))
      as [[value after_value] | f]; [| reflexivity].
    unfold ret, jump_semicolon, bind, expect_and_get_next_token.
    destruct (TokenType.eqb (token_type (current_token after_value))
                TokenType.Semicolon); reflexivity.
Qed.

Lemma parse_jump_statement_return_witness :
  @parse_jump_statement sample_collaborators None More.return_value
  = Returned (Some Sample.return_x, lexer_at [Sample.rbrace]).
Proof.
  rewrite (@parse_jump_statement_return sample_collaborators None
             More.return_value); reflexivity.
Defined.

(** ** Parameter lists and type names *)

(** X22: [parse_parameter_type_list] reads the [(] only.  When the token
    after it is [...], the closing [)] is expected while the lexer still
    stands on the [...], so a parameter list that begins with an ellipsis
    is always rejected. *)
Theorem parse_parameter_type_list_reads_paren (lexer : Lexer) :
  token_type (current_token lexer) = TokenType.LParen ->
  parse_parameter_type_list lexer
  = if TokenType.eqb (token_type (current_token (advance lexer)))
         TokenType.Ellipsis
    then Stopped (ErrorToken
                    "Expected RParen after ellipsis in variadic argument")
    else Returned (tt, advance lexer).
Proof.
  intros Hparen. unfold parse_parameter_type_list.
  rewrite (bind_step _ _ lexer (current_token lexer) lexer) by reflexivity.
  rewrite Hparen. cbn [TokenType.eqb TokenType.tag N.eqb Pos.eqb assert].
  rewrite (bind_step _ _ lexer tt lexer) by reflexivity.
  rewrite (bind_step _ _ lexer (current_token (advance lexer))
             (advance lexer)) by reflexivity.
  destruct (token_type (current_token (advance lexer))) eqn:Hkind;
    try reflexivity.
  unfold bind, expect_and_get_next_token. rewrite Hkind. reflexivity.
Qed.

Lemma parse_parameter_type_list_reads_paren_witness :
  parse_parameter_type_list More.lone_ellipsis
  = Stopped (ErrorToken
               "Expected RParen after ellipsis in variadic argument")
  /\ parse_parameter_type_list More.parameters_int
     = Returned (tt, advance More.parameters_int).
Proof.
  split.
  - rewrite (parse_parameter_type_list_reads_paren More.lone_ellipsis);
      reflexivity.
  - reflexivity.
Defined.

Lemma specifier_qualifier_loop_run `{Collaborators} scope :
  token_is_specifier_or_qualifier eof_token scope = false ->
  forall coming current declaration fuel,
    (length coming < fuel)%nat ->
    specifier_qualifier_loop fuel scope current declaration
      (mkLexer current coming)
    = match fold_declaration
              (specifier_qualifier_run scope (current :: coming))
              declaration with
      | Returned folded =>
          Returned (folded,
                    lexer_at (after_specifier_qualifier_run scope
                                (current :: coming)))
      | Stopped f => Stopped f
      end.
Proof.
  intros Heof coming.
  induction coming as [| t ts IH]; intros current declaration fuel Hfuel;
    (destruct fuel as [| fuel]; [inversion Hfuel |]);
    cbn [specifier_qualifier_loop specifier_qualifier_run
           after_specifier_qualifier_run];
    (destruct (token_is_specifier_or_qualifier current scope);
     [| reflexivity]);
    cbn [fold_declaration]; unfold bind at 1, lift;
    (destruct (update_declaration current declaration) as [folded | f];
     [| reflexivity]);
    unfold bind, get_next_token; cbn [advance upcoming current_token].
  - destruct fuel; cbn [specifier_qualifier_loop]; rewrite Heof;
      reflexivity.
  - apply IH. cbn [length] in Hfuel. lia.
Qed.

(** X23: [parse_specifier_qualifier_list] skips the token the lexer
    stands on; what it folds is the longest run of type specifiers and
    type qualifiers among the tokens after it, and it stops on the first
    token that is neither. *)
Theorem parse_specifier_qualifier_list_skips_current `{Collaborators}
    (fuel : nat) (scope : ScopePtr) (lexer : Lexer) :
  token_is_specifier_or_qualifier eof_token scope = false ->
  (length (upcoming lexer) <= fuel)%nat ->
  parse_specifier_qualifier_list fuel scope lexer
  = match fold_declaration
            (specifier_qualifier_run scope (upcoming lexer))
            empty_declaration with
    | Returned folded =>
        Returned (folded,
                  lexer_at (after_specifier_qualifier_run scope
                              (upcoming lexer)))
    | Stopped f => Stopped f
    end.
Proof.
  intros Heof Hfuel. unfold parse_specifier_qualifier_list.
  rewrite (bind_step _ _ lexer (current_token (advance lexer))
             (advance lexer)) by reflexivity.
  destruct lexer as [current [| t ts]]; cbn [upcoming advance] in *.
  - cbn [current_token specifier_qualifier_run
           after_specifier_qualifier_run fold_declaration lexer_at].
    destruct fuel; cbn [specifier_qualifier_loop]; rewrite Heof;
      reflexivity.
  - cbn [current_token]. apply specifier_qualifier_loop_run;
      [exact Heof | cbn [length] in Hfuel; lia].
Qed.

(** [( const int x )]: [const] and [int] are folded, the lexer stops on
    [x]; the [(] it stood on is not looked at. *)
Lemma parse_specifier_qualifier_list_skips_current_witness :
  @parse_specifier_qualifier_list sample_collaborators 4 None
    More.cast_const_int
  = Returned ([More.kw_const; Sample.kw_int],
              lexer_at [Sample.identifier "x"; Sample.rparen]).
Proof.
  rewrite (@parse_specifier_qualifier_list_skips_current
             sample_collaborators 4 None More.cast_const_int);
    [reflexivity | reflexivity | simpl; lia].
Defined.

(** ** Edges of the translation unit *)

(** X24: an empty file is an empty translation unit, with any fuel. *)
Theorem parse_translation_unit_empty `{Collaborators} (fuel : nat) :
  parse_translation_unit fuel [] = Returned [].
Proof. destruct fuel; reflexivity. Qed.

(** X25: a file whose first token is not a declaration specifier (a
    statement at file scope, say) is rejected with the diagnostic
    ["Expected declaration specifier"]. *)
Theorem parse_translation_unit_expects_specifier `{Collaborators}
    (fuel : nat) (first : Token) (rest : list Token) :
  token_type first <> TokenType.Eof ->
  specifier_keyword (token_type first) = false ->
  parse_translation_unit (S fuel) (first :: rest)
  = Stopped (ErrorToken ("Expected declaration specifier" ++ newline)).
Proof.
  intros Hmore Hplain. apply TokenType_eqb_neq in Hmore.
  assert (Hspecifier : token_is_declaration_specifier first
                         (Some global_scope) = false).
  { rewrite declaration_specifier_keyword; [exact Hplain |].
    intros s Hs. simpl in Hs. apply list_elem_of_singleton in Hs.
    subst s. reflexivity. }
  unfold parse_translation_unit.
  rewrite (bind_step _ _ (new_lexer (first :: rest)) first
             (lexer_at (first :: rest))) by reflexivity.
  cbn [translation_unit_loop].
  rewrite (bind_step _ _ _ first (lexer_at (first :: rest)))
    by reflexivity.
  rewrite Hmore. cbn [negb].
  unfold bind at 1. unfold parse_external_declaration.
  rewrite (bind_step _ _ _ first (lexer_at (first :: rest)))
    by reflexivity.
  rewrite Hspecifier. reflexivity.
Qed.

Lemma parse_translation_unit_expects_specifier_witness :
  @parse_translation_unit sample_collaborators 1 More.stray_statement
  = Stopped (ErrorToken ("Expected declaration specifier" ++ newline)).
Proof.
  apply (@parse_translation_unit_expects_specifier sample_collaborators 0
           (Sample.identifier "x")
           [Sample.equals; Sample.number "1"; Sample.semicolon]);
    [discriminate | reflexivity].
Defined.

(** ** Declarators with two or more pointers *)


